(** * nauto-factory: the workflow engine, its context store and its metrics log

    A shallow embedding of
    - [src/memory/session_manager.py]  (class [Session]),
    - [src/observability/logger.py]    (class [MetricsCollector]),
    - [src/agents/orchestrator.py]     (class [OrchestratorAgent]),
    followed by the properties the design document states about them.

    Python dictionaries are finite maps ([gmap]); Python lists are lists,
    oldest element first; a method that mutates [self] takes the object and
    returns the updated one.  Wall-clock readings are integers (microseconds);
    a duration in seconds is kept as its number of microseconds. *)

From stdpp Require Import gmap strings list fin_maps.
From Equations Require Import Equations.

#[local] Set Warnings "-register-all,-clear-no-such-hyp".
#[local] Open Scope string_scope.
#[local] Open Scope list_scope.
#[local] Open Scope Z_scope.

(** ** Python values held in a context store *)

(** The values the agents hand to [Session.add_context] are JSON-like. *)
Inductive pyval :=
| PyNone
| PyBool (b : bool)
| PyInt (n : Z)
| PyStr (s : string)
| PyList (l : list pyval)
| PyDict (d : gmap string pyval).

(** [type(v).__name__] *)
Definition type_name (v : pyval) : string :=
  match v with
  | PyNone => "NoneType"
  | PyBool _ => "bool"
  | PyInt _ => "int"
  | PyStr _ => "str"
  | PyList _ => "list"
  | PyDict _ => "dict"
  end.

(** ** [memory/session_manager.py] *)

Module session_manager.

(** One element of [Session.history]:
    [{"timestamp": ..., "action": ..., "key": ...}]. *)
Record HistoryEntry := {
  timestamp : Z;
  action : string;
  key : string;
}.

(** [@dataclass class Session] *)
Record Session := {
  session_id : string;
  created_at : Z;
  context : gmap string pyval;
  metrics : gmap string Z;
  history : list HistoryEntry;
  metadata : gmap string pyval;
}.

Definition set_context (c : gmap string pyval) (s : Session) : Session :=
  {| session_id := session_id s; created_at := created_at s; context := c;
     metrics := metrics s; history := history s; metadata := metadata s |}.

Definition set_metrics (m : gmap string Z) (s : Session) : Session :=
  {| session_id := session_id s; created_at := created_at s;
     context := context s; metrics := m; history := history s;
     metadata := metadata s |}.

Definition set_history (h : list HistoryEntry) (s : Session) : Session :=
  {| session_id := session_id s; created_at := created_at s;
     context := context s; metrics := metrics s; history := h;
     metadata := metadata s |}.

Definition set_metadata (md : gmap string pyval) (s : Session) : Session :=
  {| session_id := session_id s; created_at := created_at s;
     context := context s; metrics := metrics s; history := history s;
     metadata := md |}.

(** [Session(session_id=..., metadata=...)]: the other fields take their
    [default_factory] value. *)
Definition new_session (sid : string) (now : Z) (md : gmap string pyval)
  : Session :=
  {| session_id := sid; created_at := now; context := ∅; metrics := ∅;
     history := []; metadata := md |}.

(** [Session.add_context]; [now] is the reading of [datetime.now()]. *)
Definition add_context (now : Z) (k : string) (value : pyval) (s : Session)
  : Session :=
  set_history
    (history s ++ [{| timestamp := now; action := "context_added"; key := k |}])
    (set_context (<[k := value]> (context s)) s).

(** [Session.get_context] *)
Definition get_context (k : string) (default : pyval) (s : Session) : pyval :=
  match context s !! k with
  | Some v => v
  | None => default
  end.

(** [Session.increment_metric] *)
Definition increment_metric (metric_name : string) (amount : Z) (s : Session)
  : Session :=
  let m :=
    match metrics s !! metric_name with
    | Some _ => metrics s
    | None => <[metric_name := 0]> (metrics s)
    end in
  set_metrics (<[metric_name := default 0 (m !! metric_name) + amount]> m) s.

(** [Session.get_metric] *)
Definition get_metric (metric_name : string) (default : Z) (s : Session) : Z :=
  match metrics s !! metric_name with
  | Some n => n
  | None => default
  end.

(** The [for entry in reversed(self.history)] loop of [compact_context]:
    [entries] is what is left of the reversed history, [recent_keys] the
    list built so far.  Returning without a recursive call is the [break]. *)
Fixpoint scan_recent (keep_recent : Z) (entries : list HistoryEntry)
    (recent_keys : list string) : list string :=
  match entries with
  | [] => recent_keys
  | entry :: rest =>
      if decide (action entry = "context_added") then
        let recent_keys' :=
          if decide (key entry ∈ recent_keys) then recent_keys
          else recent_keys ++ [key entry] in
        if decide (keep_recent ≤ Z.of_nat (length recent_keys'))
        then recent_keys'
        else scan_recent keep_recent rest recent_keys'
      else scan_recent keep_recent rest recent_keys
  end.

(** [Session.compact_context] *)
Definition compact_context (keep_recent : Z) (s : Session) : Session :=
  if decide (keep_recent < Z.of_nat (size (context s))) then
    let recent_keys := scan_recent keep_recent (reverse (history s)) [] in
    let compacted_context :=
      filter (λ kv : string * pyval, kv.1 ∈ recent_keys) (context s) in
    let removed_items :=
      (λ v, PyStr (type_name v)) <$>
        filter (λ kv : string * pyval, kv.1 ∉ recent_keys) (context s) in
    set_metadata (<["compacted_items" := PyDict removed_items]> (metadata s))
      (set_context compacted_context s)
  else s.

(** The five operations of the store as one datatype, with the value
    each returns ([None] for the methods that return nothing). *)
Inductive Op :=
| OpAddContext (now : Z) (k : string) (value : pyval)
| OpGetContext (k : string) (default : pyval)
| OpIncrementMetric (metric_name : string) (amount : Z)
| OpGetMetric (metric_name : string) (default : Z)
| OpCompactContext (keep_recent : Z).

Definition run_op (o : Op) (s : Session) : Session * option pyval :=
  match o with
  | OpAddContext now k v => (add_context now k v s, None)
  | OpGetContext k d => (s, Some (get_context k d s))
  | OpIncrementMetric m a => (increment_metric m a s, None)
  | OpGetMetric m d => (s, Some (PyInt (get_metric m d s)))
  | OpCompactContext n => (compact_context n s, None)
  end.

(** The states a store can be in: built by the constructor and changed
    only through the methods above. *)
Inductive reachable : Session → Prop :=
| reach_new sid now md : reachable (new_session sid now md)
| reach_op o s : reachable s → reachable (run_op o s).1.

(** *** The recency set, in the words of the design document

    "Scan [history] from newest to oldest; collect the first occurrence of
    each distinct key until [N] distinct keys are collected."  [n] counts
    the keys still to be collected. *)
Fixpoint collect_first_occurrences (n : nat) (newest_first : list string)
    (collected : list string) : list string :=
  match n, newest_first with
  | O, _ => collected
  | _, [] => collected
  | S n', k :: rest =>
      if decide (k ∈ collected)
      then collect_first_occurrences n rest collected
      else collect_first_occurrences n' rest (collected ++ [k])
  end.

Definition recency_set (N : Z) (h : list HistoryEntry) : list string :=
  collect_first_occurrences (Z.to_nat N) (key <$> reverse h) [].

(** The keys of [l] that are not in [seen], each at its first occurrence. *)
Fixpoint first_occurrences (l : list string) (seen : list string)
  : list string :=
  match l with
  | [] => []
  | k :: rest =>
      if decide (k ∈ seen) then first_occurrences rest seen
      else k :: first_occurrences rest (seen ++ [k])
  end.

(** The distinct keys of a history, the most recently touched first. *)
Definition newest_first (h : list HistoryEntry) : list string :=
  first_occurrences (key <$> reverse h) [].

(** What holds of every store the methods can produce: the history has
    [context_added] entries only, and the keys of [context] are the [m] most
    recently touched ones for some [m]. *)
Definition recency_closed (s : Session) : Prop :=
  Forall (λ e, action e = "context_added") (history s) ∧
  ∃ m : nat, dom (context s) = list_to_set (take m (newest_first (history s))).

(** The invariant of the data model: every key of [context] has a
    [context_added] entry in [history]. *)
Definition context_in_history (s : Session) : Prop :=
  ∀ k, is_Some (context s !! k) →
    ∃ e, e ∈ history s ∧ action e = "context_added" ∧ key e = k.

(** *** [class SessionManager]

    [sessions] maps an id to the active session object; [memory_bank] maps
    an id to what [Session.to_dict] returned when the session was stored, a
    copy of its six fields, kept here as a [Session] value.  The memory
    bank file is rewritten by [_save_memory_bank] inside
    [try/except Exception] and read once, by [__init__]; neither changes a
    field afterwards. *)
Record SessionManager := {
  sessions : gmap string Session;
  memory_bank : gmap string Session;
}.

(** [SessionManager.create_session]: [metadata or {}] is the empty
    dictionary when [metadata] is [None]. *)
Definition create_session (now : Z) (sid : string)
    (md : option (gmap string pyval)) (m : SessionManager)
  : SessionManager * Session :=
  let session := new_session sid now (default ∅ md) in
  ({| sessions := <[sid := session]> (sessions m);
      memory_bank := memory_bank m |}, session).

(** [SessionManager.get_session] *)
Definition get_session (sid : string) (m : SessionManager) : option Session :=
  sessions m !! sid.

(** [SessionManager.store_session] *)
Definition store_session (session : Session) (m : SessionManager)
  : SessionManager :=
  {| sessions := sessions m;
     memory_bank := <[session_id session := session]> (memory_bank m) |}.

(** [SessionManager.clear_memory_bank] *)
Definition clear_memory_bank (m : SessionManager) : SessionManager :=
  {| sessions := sessions m; memory_bank := ∅ |}.

End session_manager.

(** ** [observability/logger.py] *)

Module logger.

(** One element of [MetricsCollector.metrics["requests"]].  The first three
    keys are written by [record_request_started]; the others are added when
    the request is closed and are absent ([None]) until then. *)
Record Request := {
  session_id : string;
  status : string;
  timestamp : Z;
  execution_time : option Z;
  artifacts_count : option Z;
  completed_at : option Z;
  error : option string;
  failed_at : option Z;
}.

(** One element of [metrics["errors"]]. *)
Record ErrorRecord := {
  err_session_id : string;
  err_error : string;
  err_timestamp : Z;
}.

(** One element of [metrics["agent_calls"]]. *)
Record AgentCall := {
  call_agent : string;
  call_session_id : string;
  call_duration : Z;
  call_success : bool;
  call_timestamp : Z;
}.

(** [class MetricsCollector]: the three lists of [self.metrics].
    [_save_metrics] rewrites the metrics file inside [try/except Exception]
    and changes no field, so it does not appear below. *)
Record MetricsCollector := {
  requests : list Request;
  agent_calls : list AgentCall;
  errors : list ErrorRecord;
}.

Definition empty_collector : MetricsCollector :=
  {| requests := []; agent_calls := []; errors := [] |}.

Definition set_requests (r : list Request) (m : MetricsCollector)
  : MetricsCollector :=
  {| requests := r; agent_calls := agent_calls m; errors := errors m |}.

(** [request["session_id"] == session_id and request["status"] == "started"] *)
Definition is_started (sid : string) (request : Request) : Prop :=
  session_id request = sid ∧ status request = "started".

#[global] Instance is_started_dec sid request : Decision (is_started sid request).
Proof. unfold is_started. apply _. Defined.

(** [MetricsCollector.record_request_started] *)
Definition record_request_started (now : Z) (sid : string)
    (m : MetricsCollector) : MetricsCollector :=
  set_requests
    (requests m ++
       [{| session_id := sid; status := "started"; timestamp := now;
           execution_time := None; artifacts_count := None;
           completed_at := None; error := None; failed_at := None |}]) m.

(** The four assignments in the body of the loop of
    [record_request_completed]. *)
Definition mark_completed (duration : Z) (count : Z) (now : Z)
    (request : Request) : Request :=
  {| session_id := session_id request; status := "completed";
     timestamp := timestamp request; execution_time := Some duration;
     artifacts_count := Some count; completed_at := Some now;
     error := error request; failed_at := failed_at request |}.

(** The three assignments in the body of the loop of
    [record_request_failed]. *)
Definition mark_failed (msg : string) (now : Z) (request : Request) : Request :=
  {| session_id := session_id request; status := "failed";
     timestamp := timestamp request; execution_time := execution_time request;
     artifacts_count := artifacts_count request;
     completed_at := completed_at request;
     error := Some msg; failed_at := Some now |}.

(** [for request in self.metrics["requests"]: if ...: <update>; break].
    The list is walked from its first element; [update] is applied to the
    first matching record, in place, and the walk stops there. *)
Fixpoint update_first_started (sid : string) (update : Request → Request)
    (reqs : list Request) : list Request :=
  match reqs with
  | [] => []
  | request :: rest =>
      if decide (is_started sid request) then update request :: rest
      else request :: update_first_started sid update rest
  end.

(** [MetricsCollector.record_request_completed] *)
Definition record_request_completed (now : Z) (sid : string) (duration : Z)
    (count : Z) (m : MetricsCollector) : MetricsCollector :=
  set_requests
    (update_first_started sid (mark_completed duration count now) (requests m))
    m.

(** [MetricsCollector.record_request_failed]; [now] is the reading used for
    ["failed_at"], [now'] the one used for the error record. *)
Definition record_request_failed (now now' : Z) (sid : string) (msg : string)
    (m : MetricsCollector) : MetricsCollector :=
  {| requests := update_first_started sid (mark_failed msg now) (requests m);
     agent_calls := agent_calls m;
     errors := errors m ++
       [{| err_session_id := sid; err_error := msg; err_timestamp := now' |}] |}.

(** *** The record the design document says is closed

    "Mutates the most recent [started] record for that run id found by
    scanning backward from the end of the list": position [i] holds such a
    record and no later position does. *)
Definition most_recent_started (sid : string) (reqs : list Request) (i : nat)
  : Prop :=
  (∃ r, reqs !! i = Some r ∧ is_started sid r) ∧
  ∀ j r, (i < j)%nat → reqs !! j = Some r → ¬ is_started sid r.

(** Going from [before] to [after] applies [update] to the most recent
    [started] record of [sid], and to nothing else. *)
Definition closes_most_recent (sid : string) (update : Request → Request)
    (before after : list Request) : Prop :=
  ∃ i r, most_recent_started sid before i ∧ before !! i = Some r ∧
         after = <[i := update r]> before.

(** What the code does instead: position [i] holds such a record and no
    earlier position does. *)
Definition oldest_started (sid : string) (reqs : list Request) (i : nat)
  : Prop :=
  (∃ r, reqs !! i = Some r ∧ is_started sid r) ∧
  ∀ j r, (j < i)%nat → reqs !! j = Some r → ¬ is_started sid r.

(** [MetricsCollector.record_agent_call] *)
Definition record_agent_call (now : Z) (agent_name sid : string)
    (duration : Z) (success : bool) (m : MetricsCollector)
  : MetricsCollector :=
  {| requests := requests m;
     agent_calls := agent_calls m ++
       [{| call_agent := agent_name; call_session_id := sid;
           call_duration := duration; call_success := success;
           call_timestamp := now |}];
     errors := errors m |}.

(** *** [MetricsCollector.get_summary]

    The entries of the summary that are counts.  The others
    (["success_rate"], ["avg_execution_time"] and, per agent,
    ["total_duration"], ["avg_duration"], ["success_rate"]) are floating
    point numbers and are left out. *)

(** [len(self.metrics["requests"])] *)
Definition total_requests (m : MetricsCollector) : nat := length (requests m).

(** [len([r for r in self.metrics["requests"] if r["status"] == "completed"])] *)
Definition completed_requests (m : MetricsCollector) : nat :=
  length (filter (λ r, status r = "completed") (requests m)).

(** [len([r for r in self.metrics["requests"] if r["status"] == "failed"])] *)
Definition failed_requests (m : MetricsCollector) : nat :=
  length (filter (λ r, status r = "failed") (requests m)).

(** [len(self.metrics["errors"])] *)
Definition total_errors (m : MetricsCollector) : nat := length (errors m).

(** The two counters of [agent_stats[agent]]. *)
Record AgentStats := {
  total_calls : nat;
  successful_calls : nat;
}.

(** One pass through the body of [for call in self.metrics["agent_calls"]]. *)
Definition count_call (agent_stats : gmap string AgentStats) (call : AgentCall)
  : gmap string AgentStats :=
  let agent := call_agent call in
  let agent_stats :=
    match agent_stats !! agent with
    | Some _ => agent_stats
    | None =>
        <[agent := {| total_calls := 0; successful_calls := 0 |}]> agent_stats
    end in
  let stats :=
    default {| total_calls := 0; successful_calls := 0 |} (agent_stats !! agent) in
  <[agent :=
      {| total_calls := S (total_calls stats);
         successful_calls :=
           if call_success call then S (successful_calls stats)
           else successful_calls stats |}]> agent_stats.

(** [summary["agent_statistics"]], restricted to the two counters. *)
Definition agent_statistics (m : MetricsCollector) : gmap string AgentStats :=
  foldl count_call ∅ (agent_calls m).

(** *** [class Tracer] *)

(** One element of [Tracer.traces[session_id]]; ["end_time"] is absent
    until the trace is ended. *)
Record TraceRecord := {
  operation : string;
  start_time : Z;
  trace_status : string;
  end_time : option Z;
}.

(** [Tracer.traces] *)
Definition Tracer : Type := gmap string (list TraceRecord).

(** [Tracer()] *)
Definition new_tracer : Tracer := ∅.

(** [Tracer.start_trace] *)
Definition start_trace (now : Z) (sid : string) (op : string) (t : Tracer)
  : Tracer :=
  let t :=
    match t !! sid with
    | Some _ => t
    | None => <[sid := []]> t
    end in
  <[sid := default [] (t !! sid) ++
           [{| operation := op; start_time := now;
               trace_status := "running"; end_time := None |}]]> t.

(** [trace["operation"] == operation and trace["status"] == "running"] *)
Definition is_running (op : string) (r : TraceRecord) : Prop :=
  operation r = op ∧ trace_status r = "running".

#[global] Instance is_running_dec op r : Decision (is_running op r).
Proof. unfold is_running. apply _. Defined.

(** The two assignments in the body of the loop of [end_trace]. *)
Definition mark_ended (now : Z) (success : bool) (r : TraceRecord)
  : TraceRecord :=
  {| operation := operation r; start_time := start_time r;
     trace_status := if success then "completed" else "failed";
     end_time := Some now |}.

(** [for trace in <records>: if ...: <update>; break], the records being
    given in the order in which they are visited. *)
Fixpoint update_first_running (op : string) (update : TraceRecord → TraceRecord)
    (records : list TraceRecord) : list TraceRecord :=
  match records with
  | [] => []
  | r :: rest =>
      if decide (is_running op r) then update r :: rest
      else r :: update_first_running op update rest
  end.

(** [Tracer.end_trace]: the records of the session are visited in
    [reversed] order and updated in place. *)
Definition end_trace (now : Z) (sid : string) (op : string) (success : bool)
    (t : Tracer) : Tracer :=
  match t !! sid with
  | Some records =>
      <[sid := reverse
                 (update_first_running op (mark_ended now success)
                    (reverse records))]> t
  | None => t
  end.

(** [Tracer.get_trace] *)
Definition get_trace (sid : string) (t : Tracer) : list TraceRecord :=
  default [] (t !! sid).

(** Position [i] holds a running record of [op] and no later position
    does. *)
Definition most_recent_running (op : string) (records : list TraceRecord)
    (i : nat) : Prop :=
  (∃ r, records !! i = Some r ∧ is_running op r) ∧
  ∀ j r, (i < j)%nat → records !! j = Some r → ¬ is_running op r.

End logger.

(** ** [agents/orchestrator.py] *)

Module orchestrator.

(** [str(e)] of a raised [Exception]. *)
Definition Exn : Type := string.

(** [@dataclass class AutomationRequest] *)
Record AutomationRequest := {
  spec_file : string;
  output_dir : string;
  session_id : string;
  metadata : gmap string pyval;
}.

(** [@dataclass class AutomationResult] *)
Record AutomationResult := {
  success : bool;
  artifacts : gmap string string;
  metrics : gmap string Z;
  errors : list string;
  execution_time : Z;
}.

(** *** What the agents return

    The agents are outside the engine; each returns a dictionary of which
    the engine reads the keys below.  A key read with [d["k"]] is a plain
    field, a key read with [d.get("k", default)] that the agent may leave
    out is an [option]. *)

(** [SpecificationParserAgent.parse_specification]:
    [spec_result.get("valid", False)] and [spec_result["parsed_spec"]]. *)
Record ParseResult := {
  valid : bool;
  parsed_spec : pyval;
}.

(** [AnsibleGeneratorAgent.generate_playbook] and [.refine_playbook]:
    [result["file_path"]], [result.get("inventory_path", "")]; the refined
    dictionary has ["original_path"] instead of ["inventory_path"]. *)
Record Playbook := {
  file_path : string;
  inventory_path : option string;
  original_path : option string;
}.

(** [DocumentationAgent.generate_documentation]: [doc_result["file_path"]]. *)
Record DocResult := {
  doc_file_path : string;
}.

(** One element of [review_result["issues"]]. *)
Record Issue := {
  severity : string;
  message : string;
  source : string;
}.

(** [CodeReviewAgent.review_code]: [review_result["report_path"]],
    [review_result.get("issues", [])],
    [review_result.get("critical_issues", 0)]. *)
Record ReviewResult := {
  report_path : string;
  issues : list Issue;
  critical_issues : Z;
}.

(** [TestGeneratorAgent.generate_tests]: [test_result["test_dir"]]. *)
Record TestResult := {
  test_dir : string;
}.

(** [CICDAgent.generate_pipeline]: [cicd_result["pipeline_path"]]. *)
Record CicdResult := {
  pipeline_path : string;
}.

(** The text of [_create_refinement_prompt] is a fixed template with two
    holes: the iteration number and the JSON dump of the critical issues. *)
Record Prompt := {
  prompt_iteration : Z;
  prompt_critical : list Issue;
}.

(** One call of an agent method: the [session.increment_metric] calls it
    makes (the only use the agents have for the session) and how it ends,
    by raising or by returning. *)
Record Agent (R : Type) := {
  increments : list (string * Z);
  outcome : Exn + R;
}.
Arguments increments {R} _.
Arguments outcome {R} _.

(** The collaborators of the engine and its environment.  An agent that
    asks a language model need not answer the same question the same way
    twice: [refine_playbook] and [review_code] take the number of earlier
    calls of the same method in this run.  [now i] is the [i]-th reading of
    [datetime.now()], [path_exists] is [os.path.exists]. *)
Class Agents := {
  parse_specification : string → Agent ParseResult;
  generate_documentation : pyval → Agent DocResult;
  generate_playbook : pyval → Agent Playbook;
  refine_playbook : nat → string → Prompt → pyval → Agent Playbook;
  review_code : nat → string → pyval → Agent ReviewResult;
  generate_tests : string → pyval → Agent TestResult;
  generate_pipeline : pyval → gmap string string → Agent CicdResult;
  now : nat → Z;
  path_exists : string → bool;
}.

(** *** The dictionaries as stored in the context *)

Definition py_of_playbook (p : Playbook) : pyval :=
  let d0 : gmap string pyval :=
    {[ "success" := PyBool true; "file_path" := PyStr (file_path p) ]} in
  let d1 :=
    match inventory_path p with
    | Some q => <["inventory_path" := PyStr q]> d0
    | None => d0
    end in
  PyDict
    match original_path p with
    | Some q => <["original_path" := PyStr q]> d1
    | None => d1
    end.

Definition py_of_doc (d : DocResult) : pyval :=
  PyDict {[ "success" := PyBool true; "file_path" := PyStr (doc_file_path d) ]}.

Definition py_of_issue (i : Issue) : pyval :=
  PyDict {[ "severity" := PyStr (severity i); "message" := PyStr (message i);
            "source" := PyStr (source i) ]}.

Definition py_of_review (r : ReviewResult) : pyval :=
  PyDict {[ "success" := PyBool true; "report_path" := PyStr (report_path r);
            "issues" := PyList (py_of_issue <$> issues r);
            "critical_issues" := PyInt (critical_issues r) ]}.

Definition py_of_tests (t : TestResult) : pyval :=
  PyDict {[ "success" := PyBool true; "test_dir" := PyStr (test_dir t) ]}.

Definition py_of_cicd (c : CicdResult) : pyval :=
  PyDict {[ "success" := PyBool true;
            "pipeline_path" := PyStr (pipeline_path c) ]}.

(** *** What a run can be observed to do *)

Inductive Event :=
| EvParse (f : string)
| EvDocumentation
| EvPlaybook
| EvReview (playbook_path : string) (result : Exn + ReviewResult)
| EvRefine (playbook_path : string) (result : Exn + Playbook)
| EvTests (playbook_path : string)
| EvPipeline (arts : gmap string string)
| EvValidate (result : bool)
| EvCompact (keep_recent : Z).

Definition is_review (e : Event) : bool :=
  match e with EvReview _ _ => true | _ => false end.

Definition is_refine (e : Event) : bool :=
  match e with EvRefine _ _ => true | _ => false end.

Definition is_compact (e : Event) : bool :=
  match e with EvCompact _ => true | _ => false end.

(** An event of a phase that comes after parsing. *)
Definition is_downstream (e : Event) : bool :=
  match e with EvParse _ => false | _ => true end.

Definition count (p : Event → bool) (tr : list Event) : nat :=
  length (filter (λ e, p e = true) tr).

(** *** The state a run works on

    [session] is the object made by [create_session] (the session manager
    keeps it under its id as well); [collector] is [self.metrics];
    [memory_bank] is [self.session_manager.memory_bank]; [clock] counts the
    readings of [datetime.now()]; [trace] lists the agent calls and the
    compactions, oldest first; [cur_artifacts] and [cur_errors] are the
    locals [artifacts] and [errors] of [process_automation_request]. *)
Record State := {
  session : session_manager.Session;
  collector : logger.MetricsCollector;
  memory_bank : gmap string session_manager.Session;
  clock : nat;
  trace : list Event;
  cur_artifacts : gmap string string;
  cur_errors : list string;
}.

Definition set_session (s : session_manager.Session) (st : State) : State :=
  {| session := s; collector := collector st; memory_bank := memory_bank st;
     clock := clock st; trace := trace st;
     cur_artifacts := cur_artifacts st; cur_errors := cur_errors st |}.

Definition set_collector (c : logger.MetricsCollector) (st : State) : State :=
  {| session := session st; collector := c; memory_bank := memory_bank st;
     clock := clock st; trace := trace st;
     cur_artifacts := cur_artifacts st; cur_errors := cur_errors st |}.

Definition set_memory_bank (b : gmap string session_manager.Session)
    (st : State) : State :=
  {| session := session st; collector := collector st; memory_bank := b;
     clock := clock st; trace := trace st;
     cur_artifacts := cur_artifacts st; cur_errors := cur_errors st |}.

Definition set_clock (n : nat) (st : State) : State :=
  {| session := session st; collector := collector st;
     memory_bank := memory_bank st; clock := n; trace := trace st;
     cur_artifacts := cur_artifacts st; cur_errors := cur_errors st |}.

Definition set_trace (tr : list Event) (st : State) : State :=
  {| session := session st; collector := collector st;
     memory_bank := memory_bank st; clock := clock st; trace := tr;
     cur_artifacts := cur_artifacts st; cur_errors := cur_errors st |}.

Definition set_artifacts (a : gmap string string) (st : State) : State :=
  {| session := session st; collector := collector st;
     memory_bank := memory_bank st; clock := clock st; trace := trace st;
     cur_artifacts := a; cur_errors := cur_errors st |}.

Definition set_errors (e : list string) (st : State) : State :=
  {| session := session st; collector := collector st;
     memory_bank := memory_bank st; clock := clock st; trace := trace st;
     cur_artifacts := cur_artifacts st; cur_errors := e |}.

(** *** State and exceptions *)

Definition M (A : Type) : Type := State → State * (Exn + A).

#[global] Instance M_ret : MRet M := λ A x st, (st, inr x).

#[global] Instance M_bind : MBind M := λ A B f c st,
  match c st with
  | (st', inl e) => (st', inl e)
  | (st', inr a) => f a st'
  end.

Definition raise {A} (e : Exn) : M A := λ st, (st, inl e).

Definition get : M State := λ st, (st, inr st).

Definition modify (f : State → State) : M unit := λ st, (f st, inr tt).

(** [datetime.now()] *)
Definition read_clock `{Agents} : M Z := λ st,
  (set_clock (S (clock st)) st, inr (now (clock st))).

(** The [session.increment_metric] calls of one agent call, in order. *)
Definition apply_increments (incs : list (string * Z))
    (s : session_manager.Session) : session_manager.Session :=
  foldl (λ s' '(name, amount), session_manager.increment_metric name amount s')
    s incs.

(** [await agent.method(...)]: the session receives the increments, the
    call is logged, and the result is returned or the exception raised. *)
Definition invoke {R} (ev : Event) (a : Agent R) : M R := λ st,
  (set_trace (trace st ++ [ev])
     (set_session (apply_increments (increments a) (session st)) st),
   outcome a).

(** [await asyncio.gather(t1, t2, return_exceptions=True)]: both tasks run
    to their end, whichever raises; an exception is returned in place of the
    result.  The two tasks touch the session through [increment_metric]
    only. *)
Definition gather {A B} (ev1 : Event) (a1 : Agent A) (ev2 : Event)
    (a2 : Agent B) : M ((Exn + A) * (Exn + B)) := λ st,
  (set_trace (trace st ++ [ev1; ev2])
     (set_session
        (apply_increments (increments a2)
           (apply_increments (increments a1) (session st))) st),
   inr (outcome a1, outcome a2)).

(** [session.add_context(key, value)] *)
Definition add_context `{Agents} (k : string) (v : pyval) : M unit :=
  t ← read_clock;
  modify (λ st, set_session (session_manager.add_context t k v (session st)) st).

(** [session.compact_context(keep_recent=n)] *)
Definition compact_context (n : Z) (st : State) : State :=
  set_trace (trace st ++ [EvCompact n])
    (set_session (session_manager.compact_context n (session st)) st).

(** [artifacts[k] = v] *)
Definition set_artifact (k v : string) : M unit :=
  modify (λ st, set_artifacts (<[k := v]> (cur_artifacts st)) st).

(** [errors.append(msg)] *)
Definition append_error (msg : string) : M unit :=
  modify (λ st, set_errors (cur_errors st ++ [msg]) st).

(** [await self.code_reviewer.review_code(path, parsed_spec, session)] *)
Definition invoke_review `{Agents} (path : string) (spec : pyval)
  : M ReviewResult := λ st,
  let a := review_code (count is_review (trace st)) path spec in
  invoke (EvReview path (outcome a)) a st.

(** [await self.ansible_generator.refine_playbook(path, prompt, parsed_spec,
    session)] *)
Definition invoke_refine `{Agents} (path : string) (prompt : Prompt)
    (spec : pyval) : M Playbook := λ st,
  let a := refine_playbook (count is_refine (trace st)) path prompt spec in
  invoke (EvRefine path (outcome a)) a st.

(** [OrchestratorAgent._create_refinement_prompt] *)
Definition _create_refinement_prompt (review_result : ReviewResult)
    (iteration : Z) : Prompt :=
  {| prompt_iteration := iteration;
     prompt_critical :=
       filter (λ i, severity i = "critical") (issues review_result) |}.

(** The body of the [while] of [_refinement_loop] from the computation of
    the prompt to the re-review; [iteration] is already incremented. *)
Definition refine_and_review `{Agents} (iteration : Z)
    (current_playbook : Playbook) (review_result : ReviewResult)
    (spec : pyval) : M (Playbook * ReviewResult) :=
  let refinement_prompt := _create_refinement_prompt review_result iteration in
  refined_result ←
    invoke_refine (file_path current_playbook) refinement_prompt spec;
  new_review ← invoke_review (file_path refined_result) spec;
  mret (refined_result, new_review).

(** The [while iteration < max_iterations] of [_refinement_loop], entered
    with the current values of [iteration], [current_playbook] and
    [review_result]. *)
Equations? refinement_while `{Agents} (max_iterations iteration : Z)
    (current_playbook : Playbook) (review_result : ReviewResult)
    (spec : pyval) (st : State) : State * (Exn + Playbook)
    by wf (Z.to_nat (max_iterations - iteration)) lt :=
  refinement_while max_iterations iteration current_playbook review_result
      spec st with decide (iteration < max_iterations) := {
    | left _ =>
        match refine_and_review (iteration + 1) current_playbook
                review_result spec st with
        | (st1, inl e) => (st1, inl e)
        | (st1, inr (refined_result, new_review)) =>
            if decide (critical_issues new_review = 0)
            then (st1, inr refined_result)
            else
              refinement_while max_iterations (iteration + 1)
                refined_result new_review spec (compact_context 3 st1)
        end
    | right _ => (st, inr current_playbook) }.
Proof. lia. Qed.

(** [OrchestratorAgent._refinement_loop] *)
Definition _refinement_loop `{Agents} (ansible_result : Playbook)
    (review_result : ReviewResult) (spec : pyval) (max_iterations : Z)
  : M Playbook :=
  refinement_while max_iterations 0 ansible_result review_result spec.

(** The [for artifact_type in required_artifacts] loop of
    [_validate_artifacts]. *)
Fixpoint validate_required `{Agents} (required : list string)
    (arts : gmap string string) : bool :=
  match required with
  | [] => true
  | artifact_type :: rest =>
      match arts !! artifact_type with
      | None => false
      | Some path =>
          if path_exists path then validate_required rest arts else false
      end
  end.

(** [OrchestratorAgent._validate_artifacts] *)
Definition _validate_artifacts `{Agents} (arts : gmap string string)
  : M bool := λ st,
  let ok :=
    validate_required
      ["ansible_playbook"; "code_review"; "tests"; "cicd_pipeline"] arts in
  (set_trace (trace st ++ [EvValidate ok]) st, inr ok).

(** [OrchestratorAgent._collect_metrics] *)
Definition _collect_metrics `{Agents} (duration : Z) : M (gmap string Z) :=
  st ← get;
  t ← read_clock;
  mret ({[ "execution_time_seconds" := duration;
           "total_agent_calls" :=
             session_manager.get_metric "agent_calls" 0 (session st);
           "tokens_used" :=
             session_manager.get_metric "tokens_used" 0 (session st);
           "refinement_iterations" :=
             session_manager.get_metric "refinements" 0 (session st);
           "artifacts_generated" :=
             session_manager.get_metric "artifacts" 0 (session st);
           "timestamp" := t ]} : gmap string Z).

(** [OrchestratorAgent._create_error_result]; [errors] is the list held in
    the state. *)
Definition _create_error_result `{Agents} (start_time : Z) (st : State)
  : State * AutomationResult :=
  let execution_time := now (clock st) - start_time in
  (set_clock (S (clock st)) st,
   {| success := false; artifacts := ∅;
      metrics := {[ "execution_time_seconds" := execution_time ]};
      errors := cur_errors st; execution_time := execution_time |}).

(** [return <a call that raises nothing>] inside the [try] block. *)
Definition returning {A} (f : State → State * A) : M A := λ st,
  let '(st', a) := f st in (st', inr a).

(** Step 3a of [process_automation_request]: the code review and, when it
    reports a critical issue, the refinement loop. *)
Definition step_3a_code_review `{Agents} (spec : pyval)
    (ansible_result : Playbook) : M unit :=
  review_result ← invoke_review (file_path ansible_result) spec;
  set_artifact "code_review" (report_path review_result);;
  add_context "code_review" (py_of_review review_result);;
  if decide (0 < critical_issues review_result) then
    refined_result ← _refinement_loop ansible_result review_result spec 3;
    (* [if refined_result:] a dictionary with a ["file_path"] key is not
       empty, hence true *)
    set_artifact "ansible_playbook" (file_path refined_result);;
    add_context "refined_playbook" (py_of_playbook refined_result)
  else mret tt.

(** Step 3b: test generation, on [artifacts["ansible_playbook"]]. *)
Definition step_3b_test_generation `{Agents} (spec : pyval) : M unit :=
  st ← get;
  playbook_path ←
    match cur_artifacts st !! "ansible_playbook" with
    | Some p => mret p
    | None => raise "'ansible_playbook'"
    end;
  test_result ←
    invoke (EvTests playbook_path) (generate_tests playbook_path spec);
  set_artifact "tests" (test_dir test_result);;
  add_context "tests" (py_of_tests test_result).

(** Step 3c: CI/CD pipeline generation. *)
Definition step_3c_cicd `{Agents} (spec : pyval) : M unit :=
  st ← get;
  cicd_result ←
    invoke (EvPipeline (cur_artifacts st))
      (generate_pipeline spec (cur_artifacts st));
  set_artifact "cicd_pipeline" (pipeline_path cicd_result);;
  add_context "cicd" (py_of_cicd cicd_result).

(** Phase 4 and the [return] of the [try] block.  The value of
    [await self._validate_artifacts(artifacts, session)] is not bound to
    anything. *)
Definition phase_4_validation `{Agents} (request : AutomationRequest)
    (start_time : Z) : M AutomationResult :=
  st ← get;
  _ ← _validate_artifacts (cur_artifacts st);
  t ← read_clock;
  let execution_time := t - start_time in
  t' ← read_clock;
  modify (λ st, set_collector
    (logger.record_request_completed t' (session_id request) execution_time
       (Z.of_nat (size (cur_artifacts st))) (collector st)) st);;
  modify (λ st, set_memory_bank
    (<[session_manager.session_id (session st) := session st]>
       (memory_bank st)) st);;
  collected ← _collect_metrics execution_time;
  st ← get;
  mret {| success := true; artifacts := cur_artifacts st;
          metrics := collected; errors := cur_errors st;
          execution_time := execution_time |}.

(** Phase 3 and phase 4 of [process_automation_request]: everything after
    [session.add_context("ansible_playbook", ansible_result)]. *)
Definition review_test_deliver `{Agents} (request : AutomationRequest)
    (start_time : Z) (spec : pyval) (ansible_result : Playbook)
  : M AutomationResult :=
  step_3a_code_review spec ansible_result;;
  step_3b_test_generation spec;;
  step_3c_cicd spec;;
  phase_4_validation request start_time.

(** The [try] block of [process_automation_request]. *)
Definition try_block `{Agents} (request : AutomationRequest) (start_time : Z)
  : M AutomationResult :=
  t ← read_clock;
  modify (set_session (session_manager.new_session (session_id request) t ∅));;
  t ← read_clock;
  modify (λ st, set_collector
    (logger.record_request_started t (session_id request) (collector st)) st);;
  spec_result ←
    invoke (EvParse (spec_file request))
      (parse_specification (spec_file request));
  if negb (valid spec_result) then
    append_error "Specification validation failed";;
    returning (_create_error_result start_time)
  else
    let spec := parsed_spec spec_result in
    add_context "parsed_spec" spec;;
    '(doc_result, ansible_result) ←
      gather EvDocumentation (generate_documentation spec)
             EvPlaybook (generate_playbook spec);
    match doc_result with
    | inl e => append_error ("Documentation generation failed: " +:+ e)
    | inr d =>
        set_artifact "documentation" (doc_file_path d);;
        add_context "documentation" (py_of_doc d)
    end;;
    match ansible_result with
    | inl e =>
        append_error ("Ansible generation failed: " +:+ e);;
        returning (_create_error_result start_time)
    | inr ansible_result =>
        set_artifact "ansible_playbook" (file_path ansible_result);;
        set_artifact "inventory" (default "" (inventory_path ansible_result));;
        add_context "ansible_playbook" (py_of_playbook ansible_result);;
        review_test_deliver request start_time spec ansible_result
    end.

(** The [except Exception as e] block of [process_automation_request]:
    nothing in it raises.  [record_request_failed] reads the clock for
    ["failed_at"] and for the error record. *)
Definition except_block `{Agents} (request : AutomationRequest)
    (start_time : Z) (e : Exn) (st : State) : State * AutomationResult :=
  let st1 := set_errors (cur_errors st ++ ["Orchestration error: " +:+ e]) st in
  (* [execution_time = (datetime.now() - start_time).total_seconds()],
     not used afterwards *)
  let st2 := set_clock (S (clock st1)) st1 in
  let t := now (clock st2) in
  let t' := now (S (clock st2)) in
  let st3 :=
    set_collector
      (logger.record_request_failed t t' (session_id request) e (collector st2))
      (set_clock (S (S (clock st2))) st2) in
  _create_error_result start_time st3.

(** [OrchestratorAgent.process_automation_request].  The locals [artifacts]
    and [errors] start empty and so does the trace of the run; an exception
    raised anywhere in the [try] block is handled by the [except] block. *)
Definition process_automation_request `{Agents} (request : AutomationRequest)
    (st : State) : State * AutomationResult :=
  let st0 := set_trace [] (set_errors [] (set_artifacts ∅ st)) in
  let start_time := now (clock st0) in
  let st1 := set_clock (S (clock st0)) st0 in
  match try_block request start_time st1 with
  | (st2, inr result) => (st2, result)
  | (st2, inl e) => except_block request start_time e st2
  end.

(** *** Notions used to state the properties of the loop *)

(** The playbook returned by the last call of [refine_playbook] in a
    trace. *)
Definition last_refined (tr : list Event) : option Playbook :=
  last (omap (λ e, match e with EvRefine _ (inr p) => Some p | _ => None end) tr).

(** What one call of [_refinement_loop] can add to the trace: nothing, a
    refinement that raises, a re-review that raises, a clean re-review, or
    an iteration whose re-review is critical, followed by the compaction and
    the rest of the loop. *)
Inductive loop_shape : list Event → Prop :=
| shape_exit : loop_shape []
| shape_refine_raises path e : loop_shape [EvRefine path (inl e)]
| shape_review_raises path refined e :
    loop_shape [EvRefine path (inr refined); EvReview (file_path refined) (inl e)]
| shape_clean path refined review :
    critical_issues review = 0 →
    loop_shape [EvRefine path (inr refined);
                EvReview (file_path refined) (inr review)]
| shape_again path refined review tr :
    critical_issues review ≠ 0 →
    loop_shape tr →
    loop_shape (EvRefine path (inr refined)
                :: EvReview (file_path refined) (inr review)
                :: EvCompact 3 :: tr).

(** The trace of a run in which the context is compacted after every
    iteration: each refinement followed by its re-review is followed by a
    compaction with [keep_recent=3]. *)
Definition compacted_after_every_iteration (tr : list Event) : Prop :=
  ∀ i path refined path' review,
    tr !! i = Some (EvRefine path (inr refined)) →
    tr !! S i = Some (EvReview path' (inr review)) →
    tr !! S (S i) = Some (EvCompact 3).

(** [refine_playbook] never raises. *)
Definition refiner_returns `{Agents} : Prop :=
  ∀ i path prompt spec, ∃ p, outcome (refine_playbook i path prompt spec) = inr p.

(** The [i]-th call of [review_code] returns and reports at least one
    critical issue, whatever it is asked to review. *)
Definition critical_at `{Agents} (i : nat) : Prop :=
  ∀ path spec, ∃ r, outcome (review_code i path spec) = inr r ∧ 0 < critical_issues r.

(** The [i]-th call of [review_code] returns and reports no critical
    issue. *)
Definition clean_at `{Agents} (i : nat) : Prop :=
  ∀ path spec, ∃ r, outcome (review_code i path spec) = inr r ∧ critical_issues r = 0.

(** *** Notions used to state the properties of a run *)

Definition is_validate (e : Event) : bool :=
  match e with EvValidate _ => true | _ => false end.

(** From [st] to [st'] the metrics log, the memory bank and the list
    [errors] are left alone, and the session keeps its id. *)
Definition same_books (st st' : State) : Prop :=
  collector st' = collector st ∧ memory_bank st' = memory_bank st ∧
  cur_errors st' = cur_errors st ∧
  session_manager.session_id (session st') =
    session_manager.session_id (session st).

(** The keys of [artifacts] assigned in phase 3. *)
Definition phase_3_keys : list string :=
  ["code_review"; "ansible_playbook"; "tests"; "cicd_pipeline"].

(** From [a] to [a'] no key is removed and only keys of phase 3 are
    assigned. *)
Definition assigns_phase_3_keys (a a' : gmap string string) : Prop :=
  (∀ k, is_Some (a !! k) → is_Some (a' !! k)) ∧
  (∀ k, k ∉ phase_3_keys → a' !! k = a !! k).

(** What [_create_error_result] builds, apart from the list of errors. *)
Definition is_error_result (result : AutomationResult) : Prop :=
  success result = false ∧ artifacts result = ∅ ∧
  metrics result = {[ "execution_time_seconds" := execution_time result ]}.

(** The record appended to the log by [record_request_started]. *)
Definition started_record (sid : string) (t : Z) : logger.Request :=
  {| logger.session_id := sid; logger.status := "started";
     logger.timestamp := t; logger.execution_time := None;
     logger.artifacts_count := None; logger.completed_at := None;
     logger.error := None; logger.failed_at := None |}.

End orchestrator.

(** ** [agents/spec_parser.py] *)

Module spec_parser.

(** The exceptions the operations below can raise. *)
Inductive PyError :=
| TypeError
| KeyError (k : string)
| AttributeError.

(** [sub in s] for two strings *)
Definition is_substring (sub s : string) : bool :=
  match String.index 0 sub s with
  | Some _ => true
  | None => false
  end.

(** [k in obj] for a string [k]: a key of a dictionary, an element of a
    list, a substring of a string; the other values are not iterable. *)
Definition py_in (k : string) (obj : pyval) : PyError + bool :=
  match obj with
  | PyDict d => inr (bool_decide (is_Some (d !! k)))
  | PyList l =>
      inr (existsb
             (λ v, match v with PyStr s => bool_decide (s = k) | _ => false end)
             l)
  | PyStr s => inr (is_substring k s)
  | PyNone | PyBool _ | PyInt _ => inl TypeError
  end.

(** [obj[k]] for a string [k]: only a dictionary can be indexed by a
    string. *)
Definition py_getitem (obj : pyval) (k : string) : PyError + pyval :=
  match obj with
  | PyDict d =>
      match d !! k with
      | Some v => inr v
      | None => inl (KeyError k)
      end
  | _ => inl TypeError
  end.

(** [obj.get(k, default)]: only a dictionary has the method. *)
Definition py_get (obj : pyval) (k : string) (default : pyval)
  : PyError + pyval :=
  match obj with
  | PyDict d =>
      inr match d !! k with
          | Some v => v
          | None => default
          end
  | _ => inl AttributeError
  end.

(** [isinstance(v, list)] *)
Definition is_list (v : pyval) : bool :=
  match v with PyList _ => true | _ => false end.

(** [bool(v)] *)
Definition truthy (v : pyval) : bool :=
  match v with
  | PyNone => false
  | PyBool b => b
  | PyInt n => negb (n =? 0)
  | PyStr s => negb (String.eqb s "")
  | PyList l => match l with [] => false | _ => true end
  | PyDict d => negb (bool_decide (d = ∅))
  end.

(** What [_validate_structure] returns: [{"valid": True}] or
    [{"valid": False, "error": ...}]. *)
Record Validation := {
  valid : bool;
  error : option string;
}.

Definition invalid (msg : string) : Validation :=
  {| valid := false; error := Some msg |}.

Definition required : list string :=
  ["name"; "description"; "target_devices"; "tasks"].

(** [for field in required: if field not in automation_spec:
    missing_fields.append(field)] *)
Fixpoint missing_fields (fields : list string) (automation_spec : pyval)
  : PyError + list string :=
  match fields with
  | [] => inr []
  | field :: rest =>
      match py_in field automation_spec with
      | inl e => inl e
      | inr present =>
          match missing_fields rest automation_spec with
          | inl e => inl e
          | inr missing => inr (if present then missing else field :: missing)
          end
      end
  end.

(** The checks of [_validate_structure] on one of the two lists. *)
Definition validate_list (automation_spec : pyval) (field : string)
    (not_a_list empty : string) (rest : PyError + Validation)
  : PyError + Validation :=
  match py_getitem automation_spec field with
  | inl e => inl e
  | inr v =>
      if negb (is_list v) then inr (invalid not_a_list)
      else if negb (truthy v) then inr (invalid empty)
      else rest
  end.

(** [SpecificationParserAgent._validate_structure] *)
Definition _validate_structure (spec : pyval) : PyError + Validation :=
  match py_in "automation_spec" spec with
  | inl e => inl e
  | inr false => inr (invalid "Missing 'automation_spec' root element")
  | inr true =>
      match py_getitem spec "automation_spec" with
      | inl e => inl e
      | inr automation_spec =>
          match missing_fields required automation_spec with
          | inl e => inl e
          | inr (field :: fields) =>
              inr (invalid ("Missing required fields: " +:+
                            String.concat ", " (field :: fields)))
          | inr [] =>
              validate_list automation_spec "target_devices"
                "target_devices must be a list"
                "At least one target device must be specified"
                (validate_list automation_spec "tasks"
                   "tasks must be a list"
                   "At least one task must be specified"
                   (inr {| valid := true; error := None |}))
          end
      end
  end.

(** The entries of the dictionary built by [_extract_parameters], in the
    order in which they are evaluated. *)
Fixpoint extract_entries (automation_spec : pyval)
    (entries : list (string * option pyval))
  : PyError + list (string * pyval) :=
  match entries with
  | [] => inr []
  | (k, default) :: rest =>
      match
        match default with
        | None => py_getitem automation_spec k
        | Some v => py_get automation_spec k v
        end
      with
      | inl e => inl e
      | inr v =>
          match extract_entries automation_spec rest with
          | inl e => inl e
          | inr kvs => inr ((k, v) :: kvs)
          end
      end
  end.

(** [SpecificationParserAgent._extract_parameters] *)
Definition _extract_parameters (spec : pyval) : PyError + pyval :=
  match py_getitem spec "automation_spec" with
  | inl e => inl e
  | inr automation_spec =>
      match
        extract_entries automation_spec
          [("name", None); ("description", None); ("target_devices", None);
           ("tasks", None); ("requirements", Some (PyDict ∅));
           ("cicd", Some (PyDict ∅)); ("variables", Some (PyDict ∅));
           ("handlers", Some (PyList [])); ("tags", Some (PyList []))]
      with
      | inl e => inl e
      | inr kvs =>
          match py_get spec "_ai_validation" (PyDict ∅) with
          | inl e => inl e
          | inr ai =>
              inr (PyDict (list_to_map (kvs ++ [("_ai_validation", ai)])))
          end
      end
  end.

(** [enriched = raw_spec.copy(); enriched["_ai_validation"] = v] in
    [_ai_enrich_specification]. *)
Definition enrich (raw_spec : gmap string pyval) (v : pyval) : pyval :=
  PyDict (<["_ai_validation" := v]> raw_spec).

(** A specification that has what the parser asks for: a dictionary whose
    ["automation_spec"] is a dictionary with a name, a description, a
    non-empty list of target devices and a non-empty list of tasks. *)
Definition well_formed (spec : pyval) (a : gmap string pyval) : Prop :=
  ∃ d devices tasks,
    spec = PyDict d ∧ d !! "automation_spec" = Some (PyDict a) ∧
    is_Some (a !! "name") ∧ is_Some (a !! "description") ∧
    a !! "target_devices" = Some (PyList devices) ∧ devices ≠ [] ∧
    a !! "tasks" = Some (PyList tasks) ∧ tasks ≠ [].

End spec_parser.

(** ** [agents/code_reviewer.py] *)

Module code_reviewer.

(** What [review_code] returns, without ["success"], which is [True], and
    without ["quality_score"], a floating point number. *)
Record Review := {
  report_path : string;
  issues : list orchestrator.Issue;
  critical_issues : Z;
  high_issues : Z;
  medium_issues : Z;
  low_issues : Z;
  total_issues : Z;
  passed : bool;
}.

(** [len([i for i in all_issues if i.get("severity") == sev])] *)
Definition count_severity (sev : string) (all_issues : list orchestrator.Issue)
  : Z :=
  Z.of_nat (length (filter (λ i, orchestrator.severity i = sev) all_issues)).

(** The part of [review_code] from ["# Aggregate results"] on, given the
    issues found by the three checks and the path of the report. *)
Definition aggregate (lint security ai : list orchestrator.Issue)
    (path : string) : Review :=
  let all_issues := lint ++ security ++ ai in
  let critical := count_severity "critical" all_issues in
  let high := count_severity "high" all_issues in
  {| report_path := path; issues := all_issues;
     critical_issues := critical; high_issues := high;
     medium_issues := count_severity "medium" all_issues;
     low_issues := count_severity "low" all_issues;
     total_issues := Z.of_nat (length all_issues);
     passed := (critical =? 0) && (high =? 0) |}.

(** The keys of the review that the engine reads. *)
Definition as_result (r : Review) : orchestrator.ReviewResult :=
  {| orchestrator.report_path := report_path r;
     orchestrator.issues := issues r;
     orchestrator.critical_issues := critical_issues r |}.

End code_reviewer.

(** ** Stores, logs and agents used as examples *)

Module examples.

Definition keys_0_9 : list string :=
  ["key_0"; "key_1"; "key_2"; "key_3"; "key_4";
   "key_5"; "key_6"; "key_7"; "key_8"; "key_9"].

(** [for k in ks: session.add_context(k, "value_" + k)] *)
Definition add_all (ks : list string) (s : session_manager.Session)
  : session_manager.Session :=
  foldl (λ s k, session_manager.add_context 0 k (PyStr ("value_" +:+ k)) s)
    s ks.

Definition fresh : session_manager.Session :=
  session_manager.new_session "test_session_4" 0 ∅.

(** [key_0] .. [key_9] added in order. *)
Definition ten_keys : session_manager.Session := add_all keys_0_9 fresh.

(** The same, and then [key_0] written once more. *)
Definition ten_keys_retouched : session_manager.Session :=
  add_all ["key_0"] ten_keys.

(** A store with a single key. *)
Definition one_key : session_manager.Session := add_all ["key_0"] fresh.

(** A collector on which [record_request_started("run_1")] was called
    twice, at times 1 and 2. *)
Definition started_twice : logger.MetricsCollector :=
  logger.record_request_started 2 "run_1"
    (logger.record_request_started 1 "run_1" logger.empty_collector).

(** A collector whose only request of ["run_1"] is closed already, while
    one of ["run_2"] is open. *)
Definition closed_once : logger.MetricsCollector :=
  logger.record_request_started 7 "run_2"
    (logger.record_request_completed 3 "run_1" 2000000 5
       (logger.record_request_started 1 "run_1" logger.empty_collector)).

(** A tracer on which the ["review"] operation of ["run_1"] was started
    twice, at times 1 and 2, and neither trace is ended. *)
Definition traced_twice : logger.Tracer :=
  logger.start_trace 2 "run_1" "review"
    (logger.start_trace 1 "run_1" "review" logger.new_tracer).

(** The specification of the test of the parser:
    [{"automation_spec": {"name": "test"}}]. *)
Definition name_only_spec : pyval :=
  PyDict {[ "automation_spec" := PyDict {[ "name" := PyStr "test" ]} ]}.

(** A specification with the four required fields. *)
Definition vlan_spec_fields : gmap string pyval :=
  {[ "name" := PyStr "vlan_rollout";
     "description" := PyStr "Configure VLANs on the access switches";
     "target_devices" :=
       PyList [PyDict {[ "type" := PyStr "cisco_ios"; "count" := PyInt 2 ]}];
     "tasks" := PyList [PyDict {[ "name" := PyStr "Create VLAN 10" ]}] ]}.

Definition vlan_spec : gmap string pyval :=
  {[ "automation_spec" := PyDict vlan_spec_fields ]}.

(** A review that finds a hard-coded password. *)
Definition one_critical : list orchestrator.Issue :=
  [{| orchestrator.severity := "critical";
      orchestrator.message := "Hardcoded password detected";
      orchestrator.source := "security" |};
   {| orchestrator.severity := "low";
      orchestrator.message := "Minor formatting issue";
      orchestrator.source := "ai_review" |}].

(** Agents that answer at once.  What varies: whether the parser accepts
    the specification, whether the documentation and the playbook
    generators raise, from which call on the reviewer stops reporting a
    critical issue, and whether the artifact files exist. *)
Definition scripted (parse_ok doc_ok playbook_ok : bool) (clean_from : nat)
    (files_exist : bool) : orchestrator.Agents :=
  {| orchestrator.parse_specification f :=
       {| orchestrator.increments := [("agent_calls", 1)];
          orchestrator.outcome :=
            inr {| orchestrator.valid := parse_ok;
                   orchestrator.parsed_spec :=
                     if parse_ok then PyDict {[ "name" := PyStr "demo" ]}
                     else PyNone |} |};
     orchestrator.generate_documentation spec :=
       {| orchestrator.increments := [("agent_calls", 1)];
          orchestrator.outcome :=
            if doc_ok
            then inr {| orchestrator.doc_file_path := "docs/README.md" |}
            else inl "model unavailable" |};
     orchestrator.generate_playbook spec :=
       {| orchestrator.increments := [("agent_calls", 1)];
          orchestrator.outcome :=
            if playbook_ok
            then inr {| orchestrator.file_path := "playbooks/demo.yml";
                        orchestrator.inventory_path :=
                          Some "playbooks/inventory/hosts.yml";
                        orchestrator.original_path := None |}
            else inl "disk full" |};
     orchestrator.refine_playbook i path prompt spec :=
       {| orchestrator.increments := [("tokens_used", 40); ("refinements", 1)];
          orchestrator.outcome :=
            inr {| orchestrator.file_path := path +:+ "_refined";
                   orchestrator.inventory_path := None;
                   orchestrator.original_path := Some path |} |};
     orchestrator.review_code i path spec :=
       {| orchestrator.increments := [("agent_calls", 1); ("artifacts", 1)];
          orchestrator.outcome :=
            inr {| orchestrator.report_path := "reviews/report.md";
                   orchestrator.issues :=
                     if decide (i < clean_from)%nat then one_critical else [];
                   orchestrator.critical_issues :=
                     if decide (i < clean_from)%nat then 1 else 0 |} |};
     orchestrator.generate_tests path spec :=
       {| orchestrator.increments := [("agent_calls", 1); ("artifacts", 1)];
          orchestrator.outcome := inr {| orchestrator.test_dir := "tests/demo" |} |};
     orchestrator.generate_pipeline spec arts :=
       {| orchestrator.increments := [("agent_calls", 1); ("artifacts", 1)];
          orchestrator.outcome :=
            inr {| orchestrator.pipeline_path := ".github/workflows/demo.yml" |} |};
     orchestrator.now i := Z.of_nat i * 1000000;
     orchestrator.path_exists p := files_exist |}.

(** The state of an engine that has served no request yet. *)
Definition initial : orchestrator.State :=
  {| orchestrator.session := session_manager.new_session "" 0 ∅;
     orchestrator.collector := logger.empty_collector;
     orchestrator.memory_bank := ∅; orchestrator.clock := 0;
     orchestrator.trace := []; orchestrator.cur_artifacts := ∅;
     orchestrator.cur_errors := [] |}.

Definition demo_request : orchestrator.AutomationRequest :=
  {| orchestrator.spec_file := "examples/example_spec.yaml";
     orchestrator.output_dir := "./output";
     orchestrator.session_id := "run_1"; orchestrator.metadata := ∅ |}.

(** One request served by the engine with the agents [A]. *)
Definition run (A : orchestrator.Agents) :
    orchestrator.State * orchestrator.AutomationResult :=
  orchestrator.process_automation_request demo_request initial.

(** The playbook and the review handed to the loop in the examples. *)
Definition demo_playbook : orchestrator.Playbook :=
  {| orchestrator.file_path := "playbooks/demo.yml";
     orchestrator.inventory_path := Some "playbooks/inventory/hosts.yml";
     orchestrator.original_path := None |}.

Definition demo_review : orchestrator.ReviewResult :=
  {| orchestrator.report_path := "reviews/report.md";
     orchestrator.issues := one_critical;
     orchestrator.critical_issues := 1 |}.

End examples.

(** * Properties *)

(** ** The context store *)

Module session_facts.
Import session_manager.

Lemma compact_context_history n s : history (compact_context n s) = history s.
Proof. unfold compact_context. by case_decide. Qed.

Lemma compact_context_lookup n s k v :
  context (compact_context n s) !! k = Some v → context s !! k = Some v.
Proof.
  unfold compact_context. case_decide; [|done]. cbn.
  intros Hk. by apply map_lookup_filter_Some in Hk as [? _].
Qed.

Lemma add_context_preserves now k v s :
  context_in_history s → context_in_history (add_context now k v s).
Proof.
  intros Hinv k' [v' Hk']. cbn in *.
  destruct (decide (k = k')) as [->|Hne].
  - eexists. split.
    + apply elem_of_app; right. apply list_elem_of_singleton. reflexivity.
    + done.
  - rewrite lookup_insert_ne in Hk' by done.
    destruct (Hinv k') as (e & He & Ha & Hkey); [by eexists|].
    exists e. split; [apply elem_of_app; by left|done].
Qed.

(** C9. Each of the five operations of the store keeps the invariant that
    every key of [context] has a [context_added] entry in [history], and
    the history it leaves extends the one it found: no entry is removed,
    by compaction or otherwise. *)
Theorem session_ops_preserve_history o s :
  context_in_history s →
  context_in_history (run_op o s).1 ∧
  history s `prefix_of` history (run_op o s).1.
Proof.
  intros Hinv. destruct o; cbn [run_op fst]; try done.
  - split; [by apply add_context_preserves|]. by apply prefix_app_r.
  - rewrite compact_context_history. split; [|done].
    intros k' [v' Hk']. apply compact_context_lookup in Hk'.
    destruct (Hinv k') as (e & He & Ha & Hkey); [by eexists|].
    exists e. by rewrite compact_context_history.
Qed.

Lemma context_in_history_fresh : context_in_history examples.fresh.
Proof. intros k [v Hk]. cbn in Hk. by rewrite lookup_empty in Hk. Qed.

(** The invariant holds of the one-key store, and compacting that store
    keeps it. *)
Lemma session_ops_preserve_history_witness :
  context_in_history examples.one_key ∧
  context_in_history (run_op (OpCompactContext 0) examples.one_key).1 ∧
  history examples.one_key
    `prefix_of` history (run_op (OpCompactContext 0) examples.one_key).1.
Proof.
  assert (H1 : context_in_history examples.one_key).
  { apply (session_ops_preserve_history
             (OpAddContext 0 "key_0" (PyStr "value_key_0")) examples.fresh).
    apply context_in_history_fresh. }
  split; [exact H1|].
  exact (session_ops_preserve_history (OpCompactContext 0) examples.one_key H1).
Defined.

(** The scan of the design document stops after [n] first occurrences. *)
Lemma collect_first_occurrences_take n l acc :
  collect_first_occurrences n l acc = acc ++ take n (first_occurrences l acc).
Proof.
  revert n acc. induction l as [|k rest IH]; intros n acc.
  - destruct n; cbn; by rewrite ?take_nil, app_nil_r.
  - destruct n as [|n']; cbn.
    + by rewrite take_0, app_nil_r.
    + case_decide.
      * apply IH.
      * rewrite IH. cbn. by rewrite <- app_assoc.
Qed.

(** The scan of the code stops after [max N 1] of them: the test
    [len(recent_keys) >= keep_recent] is made only after an append. *)
Lemma scan_recent_take N entries acc :
  Forall (λ e, action e = "context_added") entries →
  (length acc < Z.to_nat (Z.max N 1))%nat →
  scan_recent N entries acc =
    acc ++ take (Z.to_nat (Z.max N 1) - length acc)
             (first_occurrences (key <$> entries) acc).
Proof.
  intros Hall. revert acc.
  induction Hall as [|e rest He Hall IH]; intros acc Hlen; cbn.
  - by rewrite take_nil, app_nil_r.
  - rewrite decide_True by done.
    destruct (decide (key e ∈ acc)) as [Hin|Hnin].
    + rewrite decide_False.
      * by apply IH.
      * destruct acc as [|a acc']; [by apply not_elem_of_nil in Hin|].
        cbn in *. lia.
    + rewrite length_app. cbn [length].
      destruct (Z.to_nat (Z.max N 1) - length acc)%nat as [|d] eqn:Hd; [lia|].
      cbn [take]. case_decide as Hstop.
      * assert (d = 0%nat) as -> by lia. by rewrite take_0.
      * rewrite IH by (rewrite length_app; cbn; lia).
        rewrite length_app. cbn [length].
        rewrite <- app_assoc. cbn. do 3 f_equal. lia.
Qed.

Lemma elem_of_first_occurrences x l acc :
  x ∈ first_occurrences l acc ↔ x ∈ l ∧ x ∉ acc.
Proof.
  revert acc. induction l as [|k rest IH]; intros acc; cbn.
  - split; [by intros ?%not_elem_of_nil | by intros [?%not_elem_of_nil _]].
  - case_decide as Hk.
    + rewrite IH, elem_of_cons. naive_solver.
    + rewrite !elem_of_cons, IH, elem_of_app, list_elem_of_singleton.
      destruct (decide (x = k)); naive_solver.
Qed.

Lemma first_occurrences_NoDup l acc : NoDup (first_occurrences l acc).
Proof.
  revert acc. induction l as [|k rest IH]; intros acc; cbn.
  - constructor.
  - case_decide; [apply IH|]. constructor; [|apply IH].
    rewrite elem_of_first_occurrences, elem_of_app, list_elem_of_singleton.
    naive_solver.
Qed.

Lemma first_occurrences_filter l acc :
  first_occurrences l acc = filter (λ x, x ∉ acc) (first_occurrences l []).
Proof.
  revert acc. induction l as [|k rest IH]; intros acc; cbn; [done|].
  rewrite (decide_False (P := k ∈ [])) by apply not_elem_of_nil.
  cbn [app]. rewrite (IH [k]).
  rewrite filter_cons. rewrite list_filter_filter.
  case_decide as Hk.
  - rewrite decide_False by naive_solver. rewrite IH.
    apply list_filter_iff. intros x. rewrite list_elem_of_singleton. naive_solver.
  - rewrite decide_True by done. f_equal. rewrite IH.
    apply list_filter_iff. intros x.
    rewrite elem_of_app, !list_elem_of_singleton. naive_solver.
Qed.

Lemma recency_set_take N h :
  recency_set N h = take (Z.to_nat N) (newest_first h).
Proof. unfold recency_set. by rewrite collect_first_occurrences_take. Qed.

Lemma scan_recent_newest_first N h :
  Forall (λ e, action e = "context_added") h →
  scan_recent N (reverse h) [] = take (Z.to_nat (Z.max N 1)) (newest_first h).
Proof.
  intros Hall. rewrite scan_recent_take.
  - cbn. by rewrite Nat.sub_0_r.
  - by apply Forall_reverse.
  - cbn. lia.
Qed.

Lemma take_filter_absent (k : string) (F : list string) m :
  k ∉ take m F → take m (filter (λ x, x ∉ [k]) F) = take m F.
Proof.
  revert m. induction F as [|x F IH]; intros [|m]; try done.
  cbn [take]. intros Hk. apply not_elem_of_cons in Hk as [Hne Hk].
  rewrite filter_cons, decide_True.
  - cbn. f_equal. by apply IH.
  - rewrite list_elem_of_singleton. done.
Qed.

Lemma take_filter_present (k : string) (F : list string) m :
  NoDup F → k ∈ take m F →
  (list_to_set (take (pred m) (filter (λ x, x ∉ [k]) F)) ∪ {[k]} : gset string)
  = list_to_set (take m F).
Proof.
  intros Hnd. revert m. induction Hnd as [|x F Hx Hnd IH]; intros m Hk.
  - rewrite take_nil in Hk. by apply not_elem_of_nil in Hk.
  - destruct m as [|m]; [by apply not_elem_of_nil in Hk|].
    cbn [take pred] in *. rewrite filter_cons.
    destruct (decide (x = k)) as [->|Hne].
    + rewrite decide_False by (rewrite list_elem_of_singleton; naive_solver).
      rewrite (take_filter_absent k F m).
      * cbn. set_solver.
      * intros Hin. apply Hx. revert Hin. apply subseteq_take.
    + rewrite decide_True by (rewrite list_elem_of_singleton; naive_solver).
      apply elem_of_cons in Hk as [Hk|Hk]; [congruence|].
      destruct m as [|m]; [by apply not_elem_of_nil in Hk|].
      specialize (IH (S m) Hk). cbn [pred] in IH.
      cbn [take list_to_set]. rewrite <- IH. set_solver.
Qed.

Lemma NoDup_take_first_occurrences n l acc :
  NoDup (take n (first_occurrences l acc)).
Proof.
  eapply sublist_NoDup; [apply first_occurrences_NoDup|apply sublist_take].
Qed.

Lemma take_inter (F : list string) a b :
  (list_to_set (take a F) ∩ list_to_set (take b F) : gset string)
  = list_to_set (take (a `min` b) F).
Proof.
  apply set_eq. intros x.
  rewrite elem_of_intersection, !elem_of_list_to_set, !elem_of_take.
  split.
  - intros [(i & Hi & Hia) (j & Hj & Hjb)].
    destruct (decide (a ≤ b)%nat).
    + exists i. split; [done|lia].
    + exists j. split; [done|lia].
  - intros (i & Hi & Him). split; exists i; (split; [done|lia]).
Qed.

Lemma dom_filter_keys (c : gmap string pyval) (ks : list string) :
  dom (filter (λ kv : string * pyval, kv.1 ∈ ks) c) = dom c ∩ list_to_set ks.
Proof.
  apply dom_filter_L. intros k.
  rewrite elem_of_intersection, elem_of_dom, elem_of_list_to_set.
  unfold is_Some. cbn. naive_solver.
Qed.

(** Every store the methods can produce is recency closed. *)
Lemma reachable_recency_closed s : reachable s → recency_closed s.
Proof.
  induction 1 as [sid now md|o s Hs [Hall [m Hm]]].
  - split; [constructor|]. exists 0%nat. cbn. by rewrite dom_empty_L.
  - destruct o; cbn [run_op fst]; try (split; [done|by exists m]).
    + unfold recency_closed, add_context.
      cbn [history context set_history set_context].
      split; [apply Forall_app; split; [done|by repeat constructor]|].
      unfold newest_first. rewrite reverse_snoc.
      cbn [fmap list_fmap key first_occurrences].
      rewrite (decide_False (P := k ∈ [])) by apply not_elem_of_nil. cbn [app].
      rewrite first_occurrences_filter, dom_insert_L, Hm.
      fold (newest_first (history s)).
      destruct (decide (k ∈ take m (newest_first (history s)))) as [Hin|Hnin].
      * exists m. destruct m as [|m]; [by apply not_elem_of_nil in Hin|].
        cbn [take list_to_set].
        rewrite <- (take_filter_present k _ (S m)); [set_solver| |done].
        apply first_occurrences_NoDup.
      * exists (S m). cbn [take list_to_set].
        by rewrite take_filter_absent.
    + unfold compact_context. case_decide; [|split; [done|by exists m]].
      unfold recency_closed.
      cbn [context history set_metadata set_context]. split; [done|].
      rewrite scan_recent_newest_first by done.
      exists (m `min` Z.to_nat (Z.max keep_recent 1))%nat.
      by rewrite dom_filter_keys, Hm, take_inter.
Qed.

(** X3. For [N >= 1], on a store produced by the methods and holding more than
    [N] keys, [compact_context] keeps exactly the recency set of the design
    document ([N] keys), restricts [context] to it, records the type name of
    every dropped value and leaves [history] alone. *)
Lemma compact_context_keeps_recency_set N s :
  reachable s → 1 ≤ N → N < Z.of_nat (size (context s)) →
  let R := recency_set N (history s) in
  let s' := compact_context N s in
  dom (context s') = list_to_set R ∧
  Z.of_nat (size (context s')) = N ∧
  context s' = filter (λ kv : string * pyval, kv.1 ∈ R) (context s) ∧
  metadata s' !! "compacted_items" =
    Some (PyDict ((λ v, PyStr (type_name v)) <$>
                    filter (λ kv : string * pyval, kv.1 ∉ R) (context s))) ∧
  history s' = history s.
Proof.
  intros Hs HN Hsize R s'.
  destruct (reachable_recency_closed s Hs) as [Hall [m Hm]].
  assert (HR : scan_recent N (reverse (history s)) [] = R).
  { subst R. rewrite scan_recent_newest_first, recency_set_take by done.
    do 2 f_equal. lia. }
  assert (Hctx : context s' = filter (λ kv : string * pyval, kv.1 ∈ R) (context s)).
  { subst s'. unfold compact_context. rewrite decide_True by done.
    cbn [context set_metadata set_context]. by rewrite HR. }
  assert (Hlen : (Z.to_nat N < length (take m (newest_first (history s))))%nat).
  { assert (size (dom (context s)) ≤ length (take m (newest_first (history s))))%nat.
    { rewrite Hm, size_list_to_set; [done|].
      apply NoDup_take_first_occurrences. }
    rewrite size_dom in *. lia. }
  rewrite length_take in Hlen.
  assert (Hdom : dom (context s') = list_to_set R).
  { rewrite Hctx, dom_filter_keys, Hm. subst R. rewrite recency_set_take.
    rewrite take_inter. do 2 f_equal. lia. }
  split; [done|]. split.
  - rewrite <- size_dom, Hdom. subst R. rewrite recency_set_take.
    rewrite size_list_to_set by (apply NoDup_take_first_occurrences).
    rewrite length_take. lia.
  - split; [done|]. subst s'. unfold compact_context.
    rewrite decide_True by done.
    cbn [metadata history set_metadata set_context]. rewrite HR.
    split; [by rewrite lookup_insert_eq|done].
Qed.

(** The two stores of the design document: after [key_0] .. [key_9],
    [compact_context(keep_recent=3)] leaves [key_7], [key_8], [key_9] and
    lists the other seven keys. *)
Example compact_ten_keys :
  dom (context (compact_context 3 examples.ten_keys))
    = {["key_7"; "key_8"; "key_9"]} ∧
  metadata (compact_context 3 examples.ten_keys) !! "compacted_items" =
    Some (PyDict (list_to_map
      ((λ k, (k, PyStr "str")) <$>
         ["key_0"; "key_1"; "key_2"; "key_3"; "key_4"; "key_5"; "key_6"]))).
Proof. split; vm_compute; reflexivity. Qed.

(** When [key_0] is written again after [key_9], it is more recent than
    [key_1] .. [key_4]. *)
Example compact_retouched :
  recency_set 6 (history examples.ten_keys_retouched) =
    ["key_0"; "key_9"; "key_8"; "key_7"; "key_6"; "key_5"] ∧
  dom (context (compact_context 6 examples.ten_keys_retouched)) =
    {["key_0"; "key_9"; "key_8"; "key_7"; "key_6"; "key_5"]} ∧
  dom (context (compact_context 3 examples.ten_keys_retouched)) =
    {["key_0"; "key_9"; "key_8"]}.
Proof. repeat split; vm_compute; reflexivity. Qed.

(** C3, at [keep_recent=0]. The one-key store holds more than 0 keys and
    the scan of the design document collects no key, yet
    [compact_context(keep_recent=0)] keeps [key_0] and records no dropped
    item: the loop tests [len(recent_keys) >= keep_recent] only after it has
    appended a key, so it never stops before the first one. *)
Theorem compact_context_keep_zero_keeps_one :
  0 < Z.of_nat (size (context examples.one_key)) ∧
  recency_set 0 (history examples.one_key) = [] ∧
  dom (context (compact_context 0 examples.one_key)) = {["key_0"]} ∧
  metadata (compact_context 0 examples.one_key) !! "compacted_items"
    = Some (PyDict ∅).
Proof. repeat split; vm_compute; reflexivity. Qed.

End session_facts.

(** ** The metrics log *)

Module logger_facts.
Import logger.

Lemma update_first_started_none sid update reqs :
  Forall (λ r, ¬ is_started sid r) reqs →
  update_first_started sid update reqs = reqs.
Proof.
  induction 1 as [|r reqs Hr _ IH]; cbn; [done|].
  rewrite decide_False by done. by rewrite IH.
Qed.

(** The walk stops at the first [started] record of the run: the one at
    the lowest position. *)
Lemma update_first_started_oldest sid reqs :
  Exists (is_started sid) reqs →
  ∃ i r, oldest_started sid reqs i ∧ reqs !! i = Some r ∧
    ∀ update, update_first_started sid update reqs = <[i := update r]> reqs.
Proof.
  induction reqs as [|r reqs IH]; intros Hex.
  - by apply Exists_nil in Hex.
  - destruct (decide (is_started sid r)) as [Hr|Hr].
    + exists 0%nat, r. split; [|split; [done|]].
      * split; [by exists r|]. intros j r' Hj. lia.
      * intros update. cbn. by rewrite decide_True.
    + apply Exists_cons in Hex as [Hex|Hex]; [done|].
      destruct (IH Hex) as (i & r0 & [Hi Hbefore] & Hlook & Hupd).
      exists (S i), r0. split; [|split; [done|]].
      * split; [done|]. intros [|j] r' Hj Hr'; cbn in Hr'.
        -- by injection Hr' as <-.
        -- apply (Hbefore j); [lia|done].
      * intros update. cbn. rewrite decide_False by done. by rewrite Hupd.
Qed.

(** C7. On a log with no [started] record of the run id,
    [record_request_completed] returns the collector it was given: the
    requests (and the two other lists) are unchanged.  The method is a total
    function here because nothing in it can raise: the loop body is not
    entered and [_save_metrics] catches what the file system raises. *)
Theorem record_request_completed_no_started now sid duration count m :
  Forall (λ r, ¬ is_started sid r) (requests m) →
  record_request_completed now sid duration count m = m.
Proof.
  intros Hnone. unfold record_request_completed.
  rewrite update_first_started_none by done.
  by destruct m.
Qed.

Lemma closed_once_no_started :
  Forall (λ r, ¬ is_started "run_1" r) (requests examples.closed_once).
Proof.
  repeat constructor; intros [Hid Hst]; vm_compute in Hid, Hst; discriminate.
Defined.

Lemma record_request_completed_no_started_witness :
  Forall (λ r, ¬ is_started "run_1" r) (requests examples.closed_once) ∧
  record_request_completed 9 "run_1" 1000000 4 examples.closed_once
    = examples.closed_once.
Proof.
  split; [exact closed_once_no_started|].
  exact (record_request_completed_no_started 9 "run_1" 1000000 4
           examples.closed_once closed_once_no_started).
Defined.

(** C6, as the code has it. When the log holds a [started] record of the
    run id, [record_request_completed] and [record_request_failed] change
    the requests at one position only, the lowest one that holds such a
    record (the oldest, not the most recent), by the assignments of
    [mark_completed] and [mark_failed]. *)
Theorem record_request_closes_oldest_started sid m :
  Exists (is_started sid) (requests m) →
  ∃ i r, oldest_started sid (requests m) i ∧ requests m !! i = Some r ∧
    (∀ now duration count,
       requests (record_request_completed now sid duration count m) =
         <[i := mark_completed duration count now r]> (requests m)) ∧
    (∀ now now' msg,
       requests (record_request_failed now now' sid msg m) =
         <[i := mark_failed msg now r]> (requests m)).
Proof.
  intros Hex.
  destruct (update_first_started_oldest sid (requests m) Hex)
    as (i & r & Hi & Hlook & Hupd).
  exists i, r. repeat split; try done; try apply Hi.
  - intros. cbn. apply Hupd.
  - intros. cbn. apply Hupd.
Qed.

Lemma started_twice_has_started :
  Exists (is_started "run_1") (requests examples.started_twice).
Proof. apply Exists_cons_hd. by split. Defined.

Lemma record_request_closes_oldest_started_witness :
  Exists (is_started "run_1") (requests examples.started_twice) ∧
  ∃ i r, oldest_started "run_1" (requests examples.started_twice) i ∧
    requests examples.started_twice !! i = Some r ∧
    (∀ now duration count,
       requests (record_request_completed now "run_1" duration count
                   examples.started_twice) =
         <[i := mark_completed duration count now r]>
           (requests examples.started_twice)) ∧
    (∀ now now' msg,
       requests (record_request_failed now now' "run_1" msg
                   examples.started_twice) =
         <[i := mark_failed msg now r]> (requests examples.started_twice)).
Proof.
  split; [exact started_twice_has_started|].
  exact (record_request_closes_oldest_started "run_1" examples.started_twice
           started_twice_has_started).
Defined.

(** After two starts of ["run_1"], completing the run closes the record
    of time 1 and leaves the one of time 2 [started]. *)
Example completed_after_two_starts :
  status <$> requests (record_request_completed 3 "run_1" 5000000 4
                         examples.started_twice)
    = ["completed"; "started"] ∧
  status <$> requests (record_request_failed 3 4 "run_1" "boom"
                         examples.started_twice)
    = ["failed"; "started"].
Proof. split; reflexivity. Qed.

(** C6, as stated, fails on that log: the record that is closed is not the
    most recent [started] one. *)
Lemma completed_does_not_close_most_recent :
  ¬ closes_most_recent "run_1" (mark_completed 5000000 4 3)
      (requests examples.started_twice)
      (requests (record_request_completed 3 "run_1" 5000000 4
                   examples.started_twice)).
Proof.
  intros (i & r & [[r' [Hr' Hs]] Hlast] & Hi & Heq).
  destruct i as [|[|i]].
  - refine (Hlast 1%nat _ _ eq_refl _); [lia|]. by split.
  - vm_compute in Hi. injection Hi as <-. vm_compute in Heq. discriminate Heq.
  - vm_compute in Hi. discriminate Hi.
Qed.

End logger_facts.

(** ** The refinement loop *)

Module loop_facts.
Import orchestrator.
#[local] Arguments count : simpl never.

Lemma refinement_while_unfold `{Agents} max_iterations iteration cur rev spec st :
  refinement_while max_iterations iteration cur rev spec st =
  if decide (iteration < max_iterations) then
    match refine_and_review (iteration + 1) cur rev spec st with
    | (st1, inl e) => (st1, inl e)
    | (st1, inr (refined_result, new_review)) =>
        if decide (critical_issues new_review = 0)
        then (st1, inr refined_result)
        else refinement_while max_iterations (iteration + 1)
               refined_result new_review spec (compact_context 3 st1)
    end
  else (st, inr cur).
Proof.
  simp refinement_while. destruct (decide (iteration < max_iterations)); reflexivity.
Qed.

Lemma count_app p tr1 tr2 : count p (tr1 ++ tr2) = (count p tr1 + count p tr2)%nat.
Proof. unfold count. by rewrite filter_app, length_app. Qed.

Lemma count_cons p e tr :
  count p (e :: tr) = ((if p e then 1 else 0) + count p tr)%nat.
Proof.
  unfold count. rewrite filter_cons. destruct (p e); [by rewrite decide_True|].
  by rewrite decide_False.
Qed.

Lemma count_nil p : count p [] = 0%nat.
Proof. done. Qed.

Lemma count_pos p e tr : e ∈ tr → p e = true → (0 < count p tr)%nat.
Proof.
  intros He Hp. induction He; rewrite count_cons.
  - rewrite Hp. lia.
  - destruct (p _); lia.
Qed.

Lemma apply_increments_session_id incs s :
  session_manager.session_id (apply_increments incs s) =
    session_manager.session_id s.
Proof.
  unfold apply_increments. revert s.
  induction incs as [|[name amount] incs IH]; intros s; [done|].
  cbn [foldl]. by rewrite IH.
Qed.

Lemma compact_context_session_id n s :
  session_manager.session_id (session_manager.compact_context n s) =
    session_manager.session_id s.
Proof. unfold session_manager.compact_context. by case_decide. Qed.

Lemma same_books_refl st : same_books st st.
Proof. done. Qed.

Lemma same_books_trans st1 st2 st3 :
  same_books st1 st2 → same_books st2 st3 → same_books st1 st3.
Proof.
  intros (? & ? & ? & ?) (? & ? & ? & ?). repeat split; congruence.
Qed.

Lemma invoke_same_books {R} ev (a : Agent R) st :
  same_books st (invoke ev a st).1.
Proof.
  repeat split; cbn. apply apply_increments_session_id.
Qed.

Lemma compact_context_same_books n st : same_books st (compact_context n st).
Proof. repeat split; cbn. apply compact_context_session_id. Qed.

(** One pass through the body of the loop. *)
Lemma refine_and_review_run `{Agents} iteration cur rev spec st :
  let path := file_path cur in
  let a := refine_playbook (count is_refine (trace st)) path
             (_create_refinement_prompt rev iteration) spec in
  let '(st1, x) := refine_and_review iteration cur rev spec st in
  cur_artifacts st1 = cur_artifacts st ∧ same_books st st1 ∧
  match outcome a with
  | inl e => x = inl e ∧ trace st1 = trace st ++ [EvRefine path (inl e)]
  | inr q =>
      let b := review_code (count is_review (trace st)) (file_path q) spec in
      x = match outcome b with inl e => inl e | inr r => inr (q, r) end ∧
      trace st1 = trace st ++ [EvRefine path (inr q);
                               EvReview (file_path q) (outcome b)]
  end.
Proof.
  intros path a.
  unfold refine_and_review, invoke_refine, invoke_review, invoke.
  unfold mbind, M_bind, mret, M_ret. subst a path.
  destruct (outcome (refine_playbook _ _ _ _)) as [e|q] eqn:Ha; cbn.
  - rewrite ?Ha. repeat split; cbn; by rewrite ?apply_increments_session_id.
  - rewrite ?Ha. rewrite count_app.
    change (count is_review [EvRefine _ _]) with 0%nat. rewrite Nat.add_0_r.
    destruct (outcome (review_code _ _ _)) as [e|r] eqn:Hb; cbn;
      rewrite <- app_assoc;
      repeat split; cbn; by rewrite ?apply_increments_session_id.
Qed.

(** What the shape says about the number of calls. *)
Lemma loop_shape_counts tr :
  loop_shape tr →
  (count is_review tr ≤ count is_refine tr)%nat ∧
  (count is_compact tr ≤ count is_refine tr)%nat ∧
  count is_validate tr = 0%nat.
Proof.
  induction 1; rewrite ?count_cons, ?count_nil; cbn; lia.
Qed.

(** What the loop adds to the trace, whatever the agents do; it touches
    neither [artifacts] nor [errors], and calls the refiner no more often
    than the cap allows. *)
Lemma refinement_while_shape `{Agents} n :
  ∀ max_iterations iteration cur rev spec st,
    Z.to_nat (max_iterations - iteration) = n →
    let '(st', _) := refinement_while max_iterations iteration cur rev spec st in
    cur_artifacts st' = cur_artifacts st ∧ same_books st st' ∧
    ∃ tr, trace st' = trace st ++ tr ∧ loop_shape tr ∧
          (count is_refine tr ≤ n)%nat.
Proof.
  induction n as [|n IH]; intros max_iterations iteration cur rev spec st Hn;
    rewrite refinement_while_unfold; case_decide; try lia.
  - split; [done|split; [done|]]. exists []. rewrite app_nil_r, count_nil.
    split; [done|split; [constructor|lia]].
  - pose proof (refine_and_review_run (iteration + 1) cur rev spec st) as Hrun.
    cbn zeta in Hrun.
    destruct (refine_and_review _ _ _ _ _) as [st1 x].
    destruct Hrun as (Ha & Hb & Hrun).
    destruct (outcome (refine_playbook _ _ _ _)) as [e|q].
    { destruct Hrun as [-> Htr]. split; [done|split; [done|]].
      eexists. split; [done|]. split; [constructor|].
      rewrite count_cons, count_nil. cbn. lia. }
    cbn zeta in Hrun. destruct Hrun as [-> Htr].
    destruct (outcome (review_code _ _ _)) as [e|r].
    { split; [done|split; [done|]]. eexists. split; [done|]. split; [constructor|].
      rewrite !count_cons, count_nil. cbn. lia. }
    case_decide as Hcrit.
    { split; [done|split; [done|]]. eexists. split; [done|].
      split; [by constructor|]. rewrite !count_cons, count_nil. cbn. lia. }
    specialize (IH max_iterations (iteration + 1) q r spec (compact_context 3 st1)).
    destruct (refinement_while _ _ _ _ _ _) as [st' y].
    destruct IH as (Ha' & Hb' & tr & Htr' & Hshape & Hcount); [lia|].
    split; [rewrite Ha'; exact Ha|].
    split.
    { eapply same_books_trans; [exact Hb|].
      eapply same_books_trans; [apply compact_context_same_books|exact Hb']. }
    exists ([EvRefine (file_path cur) (inr q); EvReview (file_path q) (inr r);
             EvCompact 3] ++ tr).
    split; [|split; [by constructor|]].
    + rewrite Htr'. cbn [compact_context trace set_trace set_session].
      rewrite Htr. by rewrite <- !app_assoc.
    + cbn [app]. rewrite !count_cons. cbn. lia.
Qed.

Lemma last_refined_iteration path q path' x tr :
  last_refined (EvRefine path (inr q) :: EvReview path' x :: tr) =
    match last_refined tr with Some p => Some p | None => Some q end.
Proof.
  unfold last_refined. cbn [omap list_omap].
  change (q :: ?l) with ([q] ++ l). rewrite last_app.
  by destruct (last _).
Qed.

Lemma last_refined_compact n tr : last_refined (EvCompact n :: tr) = last_refined tr.
Proof. done. Qed.

(** The loop when the refiner always returns and the reviewer reports a
    critical issue on the first [k] re-reviews and, if the cap [n] allows
    one more, none on the next. *)
Lemma refinement_while_iterations `{Agents} :
  refiner_returns →
  ∀ n k, (k ≤ n)%nat →
  ∀ max_iterations iteration cur rev spec st,
    Z.to_nat (max_iterations - iteration) = n →
    (∀ j, (j < k)%nat → critical_at (count is_review (trace st) + j)) →
    ((k < n)%nat → clean_at (count is_review (trace st) + k)) →
    let iters := if decide (k < n)%nat then S k else n in
    ∃ st' last tr,
      refinement_while max_iterations iteration cur rev spec st
        = (st', inr last) ∧
      trace st' = trace st ++ tr ∧
      count is_refine tr = iters ∧ count is_review tr = iters ∧
      count is_compact tr = k ∧
      last_refined tr = match iters with O => None | S _ => Some last end ∧
      (iters = 0%nat → last = cur).
Proof.
  intros Hrefine. induction n as [|n IH];
    intros k Hk max_iterations iteration cur rev spec st Hn Hcrit Hclean iters;
    rewrite refinement_while_unfold; case_decide; try lia.
  - assert (k = 0%nat) as -> by lia. subst iters. cbn.
    exists st, cur, []. by rewrite app_nil_r.
  - pose proof (refine_and_review_run (iteration + 1) cur rev spec st) as Hrun.
    cbn zeta in Hrun.
    destruct (refine_and_review _ _ _ _ _) as [st1 x].
    destruct Hrun as (_ & _ & Hrun).
    destruct (Hrefine (count is_refine (trace st)) (file_path cur)
                (_create_refinement_prompt rev (iteration + 1)) spec)
      as [q Hq].
    rewrite Hq in Hrun. cbn zeta in Hrun. destruct Hrun as [-> Htr].
    destruct k as [|k].
    + destruct (Hclean ltac:(lia) (file_path q) spec) as (r & Hr & Hzero).
      rewrite Nat.add_0_r in Hr. rewrite Hr in Htr |- *.
      rewrite decide_True by done. subst iters.
      rewrite decide_True by lia.
      exists st1, q, [EvRefine (file_path cur) (inr q);
                      EvReview (file_path q) (inr r)].
      repeat split; try done.
    + destruct (Hcrit 0%nat ltac:(lia) (file_path q) spec) as (r & Hr & Hpos).
      rewrite Nat.add_0_r in Hr. rewrite Hr in Htr |- *.
      rewrite decide_False by lia.
      destruct (IH k ltac:(lia) max_iterations (iteration + 1) q r spec
                  (compact_context 3 st1))
        as (st' & last & tr & Hloop & Htr' & Hrf & Hrv & Hcp & Hlast & Hzero).
      * lia.
      * intros j Hj. cbn [compact_context trace set_trace set_session].
        rewrite Htr, !count_app, !count_cons, count_nil. cbn.
        replace (count is_review (trace st) + 1 + 0 + j)%nat
          with (count is_review (trace st) + S j)%nat by lia.
        apply Hcrit. lia.
      * intros Hlt. cbn [compact_context trace set_trace set_session].
        rewrite Htr, !count_app, !count_cons, count_nil. cbn.
        replace (count is_review (trace st) + 1 + 0 + k)%nat
          with (count is_review (trace st) + S k)%nat by lia.
        apply Hclean. lia.
      * exists st', last,
          ([EvRefine (file_path cur) (inr q); EvReview (file_path q) (inr r);
            EvCompact 3] ++ tr).
        split; [done|]. split.
        { rewrite Htr'. cbn [compact_context trace set_trace set_session].
          rewrite Htr. by rewrite <- !app_assoc. }
        cbn [app]. rewrite !count_cons, Hrf, Hrv, Hcp.
        rewrite last_refined_iteration, last_refined_compact, Hlast.
        subst iters. cbn [is_refine is_review is_compact].
        repeat case_decide; try lia; repeat split; try done; try lia.
        destruct n; [by rewrite Hzero|done].
Qed.

(** X19. Whatever the agents do, what [_refinement_loop] adds to the trace is a
    sequence of iterations, each a refinement followed by a re-review: an
    iteration whose re-review reports a critical issue is followed by the
    compaction with [keep_recent=3] and by the rest of the loop; a re-review
    that reports none, or a call that raises, ends the loop with no
    compaction.  The refiner is called at most [max_iterations] times, and
    the loop assigns neither [artifacts] nor [errors]. *)
Theorem refinement_loop_shape `{Agents} ansible_result review_result spec
    max_iterations st :
  let '(st', _) :=
    _refinement_loop ansible_result review_result spec max_iterations st in
  cur_artifacts st' = cur_artifacts st ∧ cur_errors st' = cur_errors st ∧
  ∃ tr, trace st' = trace st ++ tr ∧ loop_shape tr ∧
        (count is_refine tr ≤ Z.to_nat max_iterations)%nat ∧
        (count is_review tr ≤ count is_refine tr)%nat ∧
        (count is_compact tr ≤ count is_refine tr)%nat.
Proof.
  unfold _refinement_loop.
  pose proof (refinement_while_shape _ max_iterations 0 ansible_result
                review_result spec st eq_refl) as Hs.
  destruct (refinement_while _ _ _ _ _ _) as [st' x].
  destruct Hs as (Ha & (_ & _ & He & _) & tr & Htr & Hshape & Hn).
  rewrite Z.sub_0_r in Hn.
  destruct (loop_shape_counts _ Hshape) as (? & ? & _).
  split; [done|]. split; [done|]. by exists tr.
Qed.

(** X20. When the refiner always returns and the reviewer reports a critical
    issue on the first [k] re-reviews and none on the next one, the loop
    returns after exactly [k + 1] iterations, having compacted the context
    [k] times, and returns the playbook of the last refinement.  When the
    cap is reached first ([k = max_iterations]), there are [max_iterations]
    iterations and as many compactions, and the last refinement is
    returned, or the playbook passed in if the cap is not positive. *)
Theorem refinement_loop_stops_at_first_clean_review `{Agents} (k : nat)
    ansible_result review_result spec max_iterations st :
  refiner_returns →
  (k ≤ Z.to_nat max_iterations)%nat →
  (∀ j, (j < k)%nat → critical_at (count is_review (trace st) + j)) →
  ((k < Z.to_nat max_iterations)%nat →
   clean_at (count is_review (trace st) + k)) →
  let iters :=
    if decide (k < Z.to_nat max_iterations)%nat then S k
    else Z.to_nat max_iterations in
  ∃ st' last tr,
    _refinement_loop ansible_result review_result spec max_iterations st
      = (st', inr last) ∧
    trace st' = trace st ++ tr ∧
    count is_refine tr = iters ∧ count is_review tr = iters ∧
    count is_compact tr = k ∧
    last_refined tr = match iters with O => None | S _ => Some last end ∧
    (iters = 0%nat → last = ansible_result).
Proof.
  intros Hrefine Hk Hcrit Hclean. unfold _refinement_loop.
  apply (refinement_while_iterations Hrefine (Z.to_nat max_iterations) k Hk);
    [by rewrite Z.sub_0_r|done..].
Qed.

Lemma refinement_loop_stops_at_first_clean_review_witness :
  let A := examples.scripted true true true 2 true in
  ∃ st' last tr,
    _refinement_loop examples.demo_playbook examples.demo_review PyNone 3
      examples.initial = (st', inr last) ∧
    trace st' = [] ++ tr ∧
    count is_refine tr = 3%nat ∧ count is_review tr = 3%nat ∧
    count is_compact tr = 2%nat ∧
    last_refined tr = Some last ∧
    (3%nat = 0%nat → last = examples.demo_playbook).
Proof.
  intros A.
  apply (refinement_loop_stops_at_first_clean_review (H := A) 2
           examples.demo_playbook examples.demo_review PyNone 3
           examples.initial).
  - intros i path prompt spec. eexists. reflexivity.
  - vm_compute. lia.
  - intros j Hj path spec. eexists. split; [reflexivity|].
    cbn. change (count is_review []) with 0%nat.
    rewrite decide_True by lia. lia.
  - intros _ path spec. eexists. split; reflexivity.
Defined.

End loop_facts.

(** ** The workflow engine *)

Module engine_facts.
Import orchestrator loop_facts.
#[local] Arguments count : simpl never.

Ltac unfold_m :=
  unfold add_context, set_artifact, append_error, raise, get, modify,
    read_clock, invoke_review, invoke, returning;
  unfold mbind, M_bind, mret, M_ret.

Ltac books :=
  repeat split; cbn; rewrite ?apply_increments_session_id; try done.

Lemma bind_run {A B} (c : M A) (f : A → M B) st :
  (c ≫= f) st =
    match c st with
    | (st', inl e) => (st', inl e)
    | (st', inr a) => f a st'
    end.
Proof. done. Qed.

Lemma assigns_refl a : assigns_phase_3_keys a a.
Proof. done. Qed.

Lemma assigns_insert k v a :
  k ∈ phase_3_keys → assigns_phase_3_keys a (<[k:=v]> a).
Proof.
  intros Hk. split; intros k' Hk'.
  - destruct (decide (k = k')) as [->|]; [by rewrite lookup_insert_eq|].
    by rewrite lookup_insert_ne.
  - rewrite lookup_insert_ne; [done|]. by intros ->.
Qed.

Lemma assigns_trans a1 a2 a3 :
  assigns_phase_3_keys a1 a2 → assigns_phase_3_keys a2 a3 →
  assigns_phase_3_keys a1 a3.
Proof.
  intros [H1 H1'] [H2 H2']. split; intros k Hk.
  - auto.
  - rewrite H2', H1'; done.
Qed.

(** Step 3a: the first review, then the loop if the review is critical. *)
Lemma step_3a_code_review_run `{Agents} spec pb st :
  let a := review_code (count is_review (trace st)) (file_path pb) spec in
  let '(st', x) := step_3a_code_review spec pb st in
  same_books st st' ∧
  assigns_phase_3_keys (cur_artifacts st) (cur_artifacts st') ∧
  (∀ u, x = inr u → is_Some (cur_artifacts st' !! "code_review")) ∧
  ∃ tr, trace st' = trace st ++ EvReview (file_path pb) (outcome a) :: tr ∧
        loop_shape tr ∧ (count is_refine tr ≤ 3)%nat ∧
        (tr ≠ [] → ∃ r, outcome a = inr r ∧ 0 < critical_issues r).
Proof.
  intros a. subst a. unfold step_3a_code_review, _refinement_loop. unfold_m.
  destruct (outcome (review_code _ _ _)) as [e|r] eqn:Hr; cbn; rewrite ?Hr.
  - split; [books|]. split; [done|]. split; [done|].
    exists []. repeat split; [constructor|rewrite count_nil; lia|done].
  - case_decide as Hcrit; cbn.
    + match goal with |- context [refinement_while ?m ?i ?c ?v ?s ?t] =>
        pose proof (refinement_while_shape _ m i c v s t eq_refl) as Hs;
        destruct (refinement_while m i c v s t) as [st2 [e|last]]
      end; cbn;
      destruct Hs as (Harts & (Hc & Hm & He & Hi) & tr & Htr & Hshape & Hn);
      cbn in Harts, Hc, Hm, He, Hi, Htr, Hn;
      rewrite apply_increments_session_id in Hi;
      change (Z.to_nat (3 - 0)) with 3%nat in Hn.
      * split; [by repeat split|]. rewrite Harts.
        split; [apply assigns_insert; set_solver|]. split; [done|].
        exists tr. rewrite Htr, <- app_assoc.
        repeat split; [done..|]. intros _. by exists r.
      * split; [by repeat split|]. rewrite Harts.
        split.
        { eapply assigns_trans; apply assigns_insert; set_solver. }
        split.
        { intros ? _. rewrite lookup_insert_ne by done.
          by rewrite lookup_insert_eq. }
        exists tr. rewrite Htr, <- app_assoc.
        repeat split; [done..|]. intros _. by exists r.
    + split; [books|]. split; [apply assigns_insert; set_solver|].
      split; [intros ? _; by rewrite lookup_insert_eq|].
      exists []. repeat split; [constructor|rewrite count_nil; lia|done].
Qed.

(** Step 3b: one call of the test generator, unless the playbook key is
    missing. *)
Lemma step_3b_test_generation_run `{Agents} spec st :
  let '(st', x) := step_3b_test_generation spec st in
  same_books st st' ∧
  assigns_phase_3_keys (cur_artifacts st) (cur_artifacts st') ∧
  (∀ u, x = inr u →
     is_Some (cur_artifacts st !! "ansible_playbook") ∧
     is_Some (cur_artifacts st' !! "tests")) ∧
  ∃ tr, trace st' = trace st ++ tr ∧ (tr = [] ∨ ∃ p, tr = [EvTests p]).
Proof.
  unfold step_3b_test_generation. unfold_m. cbn.
  destruct (cur_artifacts st !! "ansible_playbook") as [p|]; cbn.
  - destruct (outcome (generate_tests p spec)) as [e|t]; cbn.
    + split; [books|]. split; [done|]. split; [done|].
      exists [EvTests p]. split; [done|]. right. by exists p.
    + split; [books|]. split; [apply assigns_insert; set_solver|].
      split; [intros ? _; split; [done|by rewrite lookup_insert_eq]|].
      exists [EvTests p]. split; [done|]. right. by exists p.
  - split; [books|]. split; [done|]. split; [done|].
    exists []. rewrite app_nil_r. split; [done|by left].
Qed.

(** Step 3c: one call of the pipeline generator. *)
Lemma step_3c_cicd_run `{Agents} spec st :
  let '(st', x) := step_3c_cicd spec st in
  same_books st st' ∧
  assigns_phase_3_keys (cur_artifacts st) (cur_artifacts st') ∧
  (∀ u, x = inr u → is_Some (cur_artifacts st' !! "cicd_pipeline")) ∧
  trace st' = trace st ++ [EvPipeline (cur_artifacts st)].
Proof.
  unfold step_3c_cicd. unfold_m. cbn.
  destruct (outcome (generate_pipeline spec _)) as [e|c]; cbn.
  - split; [books|]. done.
  - split; [books|]. split; [apply assigns_insert; set_solver|].
    split; [intros ? _; by rewrite lookup_insert_eq|done].
Qed.

(** Phase 4 always returns a result, and the result says [success]. *)
Lemma phase_4_validation_run `{Agents} request start_time st :
  let '(st', x) := phase_4_validation request start_time st in
  ∃ result,
    x = inr result ∧ success result = true ∧
    artifacts result = cur_artifacts st ∧ errors result = cur_errors st ∧
    trace st' =
      trace st ++
      [EvValidate
         (validate_required
            ["ansible_playbook"; "code_review"; "tests"; "cicd_pipeline"]
            (cur_artifacts st))] ∧
    cur_artifacts st' = cur_artifacts st ∧ cur_errors st' = cur_errors st ∧
    session st' = session st ∧
    memory_bank st' =
      <[session_manager.session_id (session st) := session st]> (memory_bank st) ∧
    collector st' =
      logger.record_request_completed (now (S (clock st))) (session_id request)
        (now (clock st) - start_time)
        (Z.of_nat (size (cur_artifacts st))) (collector st).
Proof.
  unfold phase_4_validation, _validate_artifacts, _collect_metrics. unfold_m.
  cbn [fst snd]. eexists. repeat split; reflexivity.
Qed.


#[local] Arguments step_3a_code_review : simpl never.
#[local] Arguments step_3b_test_generation : simpl never.
#[local] Arguments step_3c_cicd : simpl never.
#[local] Arguments phase_4_validation : simpl never.

Ltac counts :=
  rewrite ?count_app, ?count_cons, ?count_nil;
  cbn [is_refine is_review is_compact is_validate]; lia.

(** Phases 3 and 4 together. *)
Lemma review_test_deliver_run `{Agents} request start_time spec pb st :
  let a := review_code (count is_review (trace st)) (file_path pb) spec in
  let '(st', x) := review_test_deliver request start_time spec pb st in
  cur_errors st' = cur_errors st ∧
  session_manager.session_id (session st') =
    session_manager.session_id (session st) ∧
  assigns_phase_3_keys (cur_artifacts st) (cur_artifacts st') ∧
  (∃ tr, trace st' = trace st ++ EvReview (file_path pb) (outcome a) :: tr ∧
     (count is_refine tr ≤ 3)%nat ∧ (count is_review tr ≤ 3)%nat ∧
     (count is_compact tr ≤ 3)%nat ∧
     count is_validate tr = (if x is inr _ then 1 else 0)%nat) ∧
  match x with
  | inl _ => collector st' = collector st ∧ memory_bank st' = memory_bank st
  | inr result =>
      success result = true ∧ artifacts result = cur_artifacts st' ∧
      errors result = cur_errors st ∧
      Forall (λ k, is_Some (cur_artifacts st' !! k)) phase_3_keys ∧
      memory_bank st' =
        <[session_manager.session_id (session st') := session st']>
          (memory_bank st) ∧
      ∃ t d, collector st' =
        logger.record_request_completed t (session_id request) d
          (Z.of_nat (size (cur_artifacts st'))) (collector st)
  end.
Proof.
  intros a. subst a. unfold review_test_deliver. unfold mbind, M_bind.
  pose proof (step_3a_code_review_run spec pb st) as H3a. cbn zeta in H3a.
  destruct (step_3a_code_review spec pb st) as [st1 [e|[]]];
    destruct H3a as ((Hc1 & Hm1 & He1 & Hi1) & Ha1 & Hk1 & tr1 & Htr1 & Hs1 & Hn1 & _);
    destruct (loop_shape_counts _ Hs1) as (Hrv1 & Hcp1 & Hv1).
  { split_and!; try done. exists tr1. split_and!; try done; lia. }
  pose proof (step_3b_test_generation_run spec st1) as H3b.
  destruct (step_3b_test_generation spec st1) as [st2 [e|[]]];
    destruct H3b as ((Hc2 & Hm2 & He2 & Hi2) & Ha2 & Hk2 & tr2 & Htr2 & Hf2).
  { split_and!; try congruence; [by eapply assigns_trans|].
    exists (tr1 ++ tr2). rewrite Htr2, Htr1, <- app_assoc.
    split; [done|]. destruct Hf2 as [->|[p ->]]; split_and!; counts. }
  pose proof (step_3c_cicd_run spec st2) as H3c.
  destruct (step_3c_cicd spec st2) as [st3 [e|[]]];
    destruct H3c as ((Hc3 & Hm3 & He3 & Hi3) & Ha3 & Hk3 & Htr3).
  { split_and!; try congruence;
      [eapply assigns_trans; [|done]; by eapply assigns_trans|].
    exists (tr1 ++ tr2 ++ [EvPipeline (cur_artifacts st2)]).
    rewrite Htr3, Htr2, Htr1, <- !app_assoc.
    split; [done|]. destruct Hf2 as [->|[p ->]]; split_and!; counts. }
  pose proof (phase_4_validation_run request start_time st3) as H4.
  destruct (phase_4_validation request start_time st3) as [st4 x].
  destruct H4 as (result & -> & Hok & Hart & Herr & Htr4 & Ha4 & He4 & Hs4 & Hm4 & Hc4).
  destruct (Hk2 () eq_refl) as [Hpb Htests].
  assert (assigns_phase_3_keys (cur_artifacts st) (cur_artifacts st3)) as Ha
    by (eapply assigns_trans; [|done]; by eapply assigns_trans).
  split_and!; try congruence.
  - eexists (tr1 ++ tr2 ++ [EvPipeline (cur_artifacts st2); EvValidate _]).
    rewrite Htr4, Htr3, Htr2, Htr1, <- !app_assoc.
    split; [done|]. destruct Hf2 as [->|[p ->]]; split_and!; counts.
  - rewrite Ha4. destruct Ha2 as [Ha2 _], Ha3 as [Ha3 _].
    repeat constructor; eauto.
  - eexists _, _. by rewrite Hc4, Ha4, Hc3, Hc2, Hc1.
Qed.


#[local] Arguments review_test_deliver : simpl never.

(** The [try] block up to the end of phase 2. *)
Lemma try_block_run `{Agents} request start_time st :
  let f := spec_file request in
  let sid := session_id request in
  let log0 :=
    logger.record_request_started (now (S (clock st))) sid (collector st) in
  let '(st', x) := try_block request start_time st in
  match outcome (parse_specification f) with
  | inl e =>
      x = inl e ∧ trace st' = trace st ++ [EvParse f] ∧
      cur_errors st' = cur_errors st ∧
      collector st' = log0 ∧ memory_bank st' = memory_bank st
  | inr pr =>
      if valid pr then
        let spec := parsed_spec pr in
        let d := outcome (generate_documentation spec) in
        let errs :=
          cur_errors st ++
          match d with
          | inl e => ["Documentation generation failed: " +:+ e]
          | inr _ => []
          end in
        let arts :=
          match d with
          | inl _ => cur_artifacts st
          | inr dr => <["documentation" := doc_file_path dr]> (cur_artifacts st)
          end in
        match outcome (generate_playbook spec) with
        | inl e =>
            ∃ result, x = inr result ∧ is_error_result result ∧
              errors result = errs ++ ["Ansible generation failed: " +:+ e] ∧
              trace st' = trace st ++ [EvParse f; EvDocumentation; EvPlaybook] ∧
              collector st' = log0 ∧ memory_bank st' = memory_bank st
        | inr pb =>
            ∃ st1,
              trace st1 = trace st ++ [EvParse f; EvDocumentation; EvPlaybook] ∧
              cur_errors st1 = errs ∧
              cur_artifacts st1 =
                <["inventory" := default "" (inventory_path pb)]>
                  (<["ansible_playbook" := file_path pb]> arts) ∧
              collector st1 = log0 ∧ memory_bank st1 = memory_bank st ∧
              session_manager.session_id (session st1) = sid ∧
              review_test_deliver request start_time spec pb st1 = (st', x)
        end
      else
        ∃ result, x = inr result ∧ is_error_result result ∧
          errors result = cur_errors st ++ ["Specification validation failed"] ∧
          trace st' = trace st ++ [EvParse f] ∧
          collector st' = log0 ∧ memory_bank st' = memory_bank st
  end.
Proof.
  intros f sid log0. subst f sid log0.
  unfold try_block, gather, _create_error_result. unfold_m.
  cbn.
  destruct (outcome (parse_specification _)) as [e|pr]; cbn; [done|].
  destruct (valid pr); cbn; [|eexists; done].
  destruct (outcome (generate_documentation _)) as [e1|dr];
    destruct (outcome (generate_playbook _)) as [e2|pb]; cbn.
  1,3: eexists; rewrite <- ?app_assoc; done.
  all: destruct (review_test_deliver _ _ _ _ _) as [st' x] eqn:Htail.
  all: match type of Htail with review_test_deliver _ _ _ _ ?t = _ =>
         exists t end.
  all: split_and!; [..|exact Htail].
  all: repeat (cbn; rewrite <- ?app_assoc, ?app_nil_r,
                 ?apply_increments_session_id); done.
Qed.


(** The [except] block returns the error result and records the failure. *)
Lemma except_block_run `{Agents} request start_time e st :
  let '(st', result) := except_block request start_time e st in
  is_error_result result ∧
  errors result = cur_errors st ++ ["Orchestration error: " +:+ e] ∧
  trace st' = trace st ∧ memory_bank st' = memory_bank st ∧
  collector st' =
    logger.record_request_failed (now (S (clock st))) (now (S (S (clock st))))
      (session_id request) e (collector st).
Proof. done. Qed.

#[local] Arguments try_block : simpl never.
#[local] Arguments except_block : simpl never.

(** The anatomy of a run, by what the parser and the two generators of
    phase 2 do. *)
Lemma process_automation_request_run `{Agents} request st :
  let f := spec_file request in
  let sid := session_id request in
  let log0 :=
    logger.record_request_started (now (S (S (clock st)))) sid (collector st) in
  let '(st', result) := process_automation_request request st in
  match outcome (parse_specification f) with
  | inl e =>
      is_error_result result ∧
      errors result = ["Orchestration error: " +:+ e] ∧
      trace st' = [EvParse f] ∧ memory_bank st' = memory_bank st ∧
      ∃ t t', collector st' = logger.record_request_failed t t' sid e log0
  | inr pr =>
      if valid pr then
        let spec := parsed_spec pr in
        let d := outcome (generate_documentation spec) in
        let errs :=
          match d with
          | inl e => ["Documentation generation failed: " +:+ e]
          | inr _ => []
          end in
        match outcome (generate_playbook spec) with
        | inl e =>
            is_error_result result ∧
            errors result = errs ++ ["Ansible generation failed: " +:+ e] ∧
            trace st' = [EvParse f; EvDocumentation; EvPlaybook] ∧
            memory_bank st' = memory_bank st ∧ collector st' = log0
        | inr pb =>
            ∃ tr,
              trace st' =
                [EvParse f; EvDocumentation; EvPlaybook;
                 EvReview (file_path pb)
                   (outcome (review_code 0 (file_path pb) spec))] ++ tr ∧
              (count is_refine tr ≤ 3)%nat ∧ (count is_review tr ≤ 3)%nat ∧
              (count is_compact tr ≤ 3)%nat ∧
              if success result then
                count is_validate tr = 1%nat ∧ errors result = errs ∧
                Forall (λ k, is_Some (artifacts result !! k)) phase_3_keys ∧
                artifacts result !! "inventory" =
                  Some (default "" (inventory_path pb)) ∧
                artifacts result !! "documentation" =
                  match d with
                  | inl _ => None
                  | inr dr => Some (doc_file_path dr)
                  end ∧
                session_manager.session_id (session st') = sid ∧
                memory_bank st' = <[sid := session st']> (memory_bank st) ∧
                ∃ t d, collector st' =
                  logger.record_request_completed t sid d
                    (Z.of_nat (size (artifacts result))) log0
              else
                count is_validate tr = 0%nat ∧ is_error_result result ∧
                memory_bank st' = memory_bank st ∧
                ∃ e, errors result = errs ++ ["Orchestration error: " +:+ e] ∧
                  ∃ t t', collector st' =
                    logger.record_request_failed t t' sid e log0
        end
      else
        is_error_result result ∧
        errors result = ["Specification validation failed"] ∧
        trace st' = [EvParse f] ∧ memory_bank st' = memory_bank st ∧
        collector st' = log0
  end.
Proof.
  intros f sid log0. subst f sid log0. unfold process_automation_request.
  match goal with |- context [try_block request ?t ?s] =>
    pose proof (try_block_run request t s) as Htry; cbn zeta in Htry;
    destruct (try_block request t s) as [st2 x]
  end.
  cbn [clock set_clock set_trace set_errors set_artifacts trace cur_errors
       cur_artifacts collector memory_bank app] in Htry.
  destruct (outcome (parse_specification _)) as [e|pr].
  { destruct Htry as (-> & Htr & He & Hc & Hm).
    match goal with |- context [except_block request ?t e st2] =>
      pose proof (except_block_run request t e st2) as Hex;
      destruct (except_block request t e st2) as [st3 result]
    end.
    destruct Hex as (Hres & Herr & Htr' & Hm' & Hc').
    rewrite He in Herr. rewrite Hc in Hc'.
    split_and!; [done|exact Herr|congruence|congruence|].
    do 2 eexists. exact Hc'. }
  destruct (valid pr);
    [|destruct Htry as (result & -> & Hres & Herr & Htr & Hc & Hm); done].
  cbn zeta in Htry.
  destruct (outcome (generate_playbook _)) as [e|pb];
    [destruct Htry as (result & -> & Hres & Herr & Htr & Hc & Hm); done|].
  destruct Htry as (st1 & Htr1 & He1 & Ha1 & Hc1 & Hm1 & Hi1 & Htail).
  pose proof (review_test_deliver_run request
                (now (clock (set_trace [] (set_errors [] (set_artifacts ∅ st)))))
                (parsed_spec pr) pb st1) as Hrun.
  cbn zeta in Hrun. cbn [clock set_trace set_errors set_artifacts] in Hrun, Htail.
  rewrite Htail in Hrun.
  destruct Hrun as (He & Hi & [Hkeep Hother] & (tr & Htr & Hrf & Hrv & Hcp & Hv) & Hx).
  rewrite Htr1 in Htr.
  change (count is_review [EvParse _; EvDocumentation; EvPlaybook]) with 0%nat in Htr.
  destruct x as [e|result].
  - destruct Hx as [Hc Hm].
    match goal with |- context [except_block request ?t e st2] =>
      pose proof (except_block_run request t e st2) as Hex;
      destruct (except_block request t e st2) as [st3 result]
    end.
    destruct Hex as ((Hfail & Hres) & Herr & Htr' & Hm' & Hc').
    exists tr. rewrite Hfail. split_and!; try done; try congruence;
      [by rewrite Htr', Htr|].
    exists e. split; [congruence|]. do 2 eexists. by rewrite Hc', Hc, Hc1.
  - destruct Hx as (Hok & Hart & Herr & Hkeys & Hm & t & d & Hc).
    exists tr. rewrite Hok. split_and!; try done; try congruence.
    + by rewrite Hart.
    + rewrite Hart, Hother, Ha1 by set_solver. by rewrite lookup_insert_eq.
    + rewrite Hart, Hother, Ha1 by set_solver.
      rewrite !lookup_insert_ne by done.
      destruct (outcome (generate_documentation _)); [done|].
      by rewrite lookup_insert_eq.
    + exists t, d. by rewrite Hc, Hart, Hc1.
Qed.


(** *** Properties of a run *)

(** X21. When the parser returns a specification it judges invalid, the run
    stops there: the result is the error result with the single error
    ["Specification validation failed"], the parser is the only agent
    called, nothing is stored in the memory bank, and the request stays
    ["started"] in the metrics log: neither [record_request_completed] nor
    [record_request_failed] is called. *)
Theorem invalid_specification_stops_the_run `{Agents} request st pr :
  outcome (parse_specification (spec_file request)) = inr pr →
  valid pr = false →
  let '(st', result) := process_automation_request request st in
  is_error_result result ∧
  errors result = ["Specification validation failed"] ∧
  trace st' = [EvParse (spec_file request)] ∧
  memory_bank st' = memory_bank st ∧
  logger.requests (collector st') =
    logger.requests (collector st) ++
    [started_record (session_id request) (now (S (S (clock st))))] ∧
  logger.errors (collector st') = logger.errors (collector st).
Proof.
  intros Hparse Hvalid.
  pose proof (process_automation_request_run request st) as Hrun.
  cbn zeta in Hrun. destruct (process_automation_request request st) as [st' result].
  rewrite Hparse, Hvalid in Hrun.
  destruct Hrun as (Hres & Herr & Htr & Hm & ->). done.
Qed.

Lemma invalid_specification_stops_the_run_witness :
  let A := examples.scripted false true true 0 true in
  let '(st', result) :=
    process_automation_request examples.demo_request examples.initial in
  is_error_result result ∧
  errors result = ["Specification validation failed"] ∧
  trace st' = [EvParse "examples/example_spec.yaml"] ∧
  memory_bank st' = ∅ ∧
  logger.requests (collector st') = [started_record "run_1" 2000000] ∧
  logger.errors (collector st') = [].
Proof.
  intros A.
  exact (invalid_specification_stops_the_run (H := A) examples.demo_request
           examples.initial _ eq_refl eq_refl).
Defined.

(** X25. A run that reports failure returns no artifact, whatever had been
    generated before the failure, its metrics hold the execution time only,
    and its session is not stored in the memory bank. *)
Theorem failed_run_returns_no_artifacts `{Agents} request st :
  success (process_automation_request request st).2 = false →
  is_error_result (process_automation_request request st).2 ∧
  memory_bank (process_automation_request request st).1 = memory_bank st.
Proof.
  pose proof (process_automation_request_run request st) as Hrun.
  cbn zeta in Hrun. destruct (process_automation_request request st) as [st' result].
  cbn [fst snd]. intros Hfail.
  destruct (outcome (parse_specification _)) as [e|pr]; [by destruct Hrun as (? & ? & ? & ? & ?)|].
  destruct (valid pr); [|by destruct Hrun as (? & ? & ? & ? & ?)].
  cbn zeta in Hrun.
  destruct (outcome (generate_playbook _)) as [e|pb];
    [by destruct Hrun as (? & ? & ? & ? & ?)|].
  destruct Hrun as (tr & _ & _ & _ & _ & Hrun). rewrite Hfail in Hrun.
  by destruct Hrun as (_ & ? & ? & _).
Qed.

Lemma failed_run_returns_no_artifacts_witness :
  let A := examples.scripted true true false 0 true in
  is_error_result (examples.run A).2 ∧
  memory_bank (examples.run A).1 = ∅.
Proof.
  intros A.
  exact (failed_run_returns_no_artifacts (H := A) examples.demo_request
           examples.initial eq_refl).
Defined.

(** X22. When the playbook generator raises, the run fails with
    ["Ansible generation failed: ..."] as its last error, after the error of
    the documentation generator if that one raised too: both generators are
    awaited, no later agent is called, nothing is stored, and the request
    stays ["started"] in the metrics log. *)
Theorem playbook_failure_is_fatal `{Agents} request st pr e :
  outcome (parse_specification (spec_file request)) = inr pr →
  valid pr = true →
  outcome (generate_playbook (parsed_spec pr)) = inl e →
  let '(st', result) := process_automation_request request st in
  is_error_result result ∧
  errors result =
    match outcome (generate_documentation (parsed_spec pr)) with
    | inl e' => ["Documentation generation failed: " +:+ e']
    | inr _ => []
    end ++ ["Ansible generation failed: " +:+ e] ∧
  trace st' = [EvParse (spec_file request); EvDocumentation; EvPlaybook] ∧
  memory_bank st' = memory_bank st ∧
  collector st' =
    logger.record_request_started (now (S (S (clock st))))
      (session_id request) (collector st).
Proof.
  intros Hparse Hvalid Hpb.
  pose proof (process_automation_request_run request st) as Hrun.
  cbn zeta in Hrun. destruct (process_automation_request request st) as [st' result].
  rewrite Hparse, Hvalid in Hrun. cbn zeta in Hrun. by rewrite Hpb in Hrun.
Qed.


(** X23. When the documentation generator raises and the playbook generator
    returns, the run goes on: the next agent called is the reviewer, on the
    generated playbook.  The failure is the first entry of the errors of
    the result, no ["documentation"] artifact is returned, and if the run
    succeeds that failure is its only error. *)
Theorem documentation_failure_is_not_fatal `{Agents} request st pr e pb :
  outcome (parse_specification (spec_file request)) = inr pr →
  valid pr = true →
  outcome (generate_documentation (parsed_spec pr)) = inl e →
  outcome (generate_playbook (parsed_spec pr)) = inr pb →
  let '(st', result) := process_automation_request request st in
  (∃ tr, trace st' =
     [EvParse (spec_file request); EvDocumentation; EvPlaybook;
      EvReview (file_path pb)
        (outcome (review_code 0 (file_path pb) (parsed_spec pr)))] ++ tr) ∧
  head (errors result) = Some ("Documentation generation failed: " +:+ e) ∧
  artifacts result !! "documentation" = None ∧
  (success result = true →
   errors result = ["Documentation generation failed: " +:+ e]).
Proof.
  intros Hparse Hvalid Hdoc Hpb.
  pose proof (process_automation_request_run request st) as Hrun.
  cbn zeta in Hrun. destruct (process_automation_request request st) as [st' result].
  rewrite Hparse, Hvalid in Hrun. cbn zeta in Hrun. rewrite Hpb, Hdoc in Hrun.
  destruct Hrun as (tr & Htr & _ & _ & _ & Hrun).
  split; [by exists tr|].
  destruct (success result).
  - destruct Hrun as (_ & -> & _ & _ & -> & _). done.
  - destruct Hrun as (_ & (_ & -> & _) & _ & e' & -> & _). done.
Qed.


(** X24. The value returned by [_validate_artifacts] has no effect on the
    result: in every run that reaches the validation the result says
    success, whether the validation returned [True] or [False]. *)
Theorem validation_result_is_ignored `{Agents} request st ok :
  EvValidate ok ∈ trace (process_automation_request request st).1 →
  success (process_automation_request request st).2 = true.
Proof.
  pose proof (process_automation_request_run request st) as Hrun.
  cbn zeta in Hrun. destruct (process_automation_request request st) as [st' result].
  cbn [fst snd]. intros Hin.
  assert (0 < count is_validate (trace st'))%nat as Hpos
    by (by eapply count_pos).
  destruct (outcome (parse_specification _)) as [e|pr].
  { destruct Hrun as (_ & _ & Htr & _). rewrite Htr in Hpos.
    rewrite count_cons, count_nil in Hpos. cbn in Hpos. lia. }
  destruct (valid pr).
  2: { destruct Hrun as (_ & _ & Htr & _). rewrite Htr in Hpos.
       rewrite count_cons, count_nil in Hpos. cbn in Hpos. lia. }
  cbn zeta in Hrun.
  destruct (outcome (generate_playbook _)) as [e|pb].
  { destruct Hrun as (_ & _ & Htr & _). rewrite Htr in Hpos.
    rewrite !count_cons, count_nil in Hpos. cbn in Hpos. lia. }
  destruct Hrun as (tr & Htr & _ & _ & _ & Hrun).
  destruct (success result); [done|].
  destruct Hrun as (Hv & _). rewrite Htr, count_app, !count_cons, count_nil, Hv in Hpos.
  cbn in Hpos. lia.
Qed.


(** X28. Whatever the agents do, one run calls the refiner at most three times
    and the reviewer at most four times (the first review and three
    re-reviews), and compacts the context at most three times. *)
Theorem refinement_is_bounded_in_every_run `{Agents} request st :
  let tr := trace (process_automation_request request st).1 in
  (count is_refine tr ≤ 3)%nat ∧ (count is_review tr ≤ 4)%nat ∧
  (count is_compact tr ≤ 3)%nat.
Proof.
  pose proof (process_automation_request_run request st) as Hrun.
  cbn zeta in Hrun. destruct (process_automation_request request st) as [st' result].
  cbn [fst snd]. cbn zeta.
  destruct (outcome (parse_specification _)) as [e|pr].
  { destruct Hrun as (_ & _ & -> & _). split_and!; counts. }
  destruct (valid pr).
  2: { destruct Hrun as (_ & _ & -> & _). split_and!; counts. }
  cbn zeta in Hrun.
  destruct (outcome (generate_playbook _)) as [e|pb].
  { destruct Hrun as (_ & _ & -> & _). split_and!; counts. }
  destruct Hrun as (tr & -> & ? & ? & ? & _). split_and!; counts.
Qed.

Lemma playbook_failure_is_fatal_witness :
  let A := examples.scripted true false false 0 true in
  let '(st', result) :=
    process_automation_request examples.demo_request examples.initial in
  is_error_result result ∧
  errors result =
    ["Documentation generation failed: model unavailable";
     "Ansible generation failed: disk full"] ∧
  trace st' = [EvParse "examples/example_spec.yaml"; EvDocumentation; EvPlaybook] ∧
  memory_bank st' = ∅ ∧
  collector st' =
    logger.record_request_started 2000000 "run_1" logger.empty_collector.
Proof.
  intros A.
  exact (playbook_failure_is_fatal (H := A) examples.demo_request
           examples.initial _ _ eq_refl eq_refl eq_refl).
Defined.

Lemma documentation_failure_is_not_fatal_witness :
  let A := examples.scripted true false true 0 true in
  let '(st', result) :=
    process_automation_request examples.demo_request examples.initial in
  (∃ tr, trace st' =
     [EvParse "examples/example_spec.yaml"; EvDocumentation; EvPlaybook;
      EvReview "playbooks/demo.yml"
        (inr {| report_path := "reviews/report.md"; issues := [];
                critical_issues := 0 |})] ++ tr) ∧
  head (errors result) =
    Some "Documentation generation failed: model unavailable" ∧
  artifacts result !! "documentation" = None ∧
  (success result = true →
   errors result = ["Documentation generation failed: model unavailable"]).
Proof.
  intros A.
  exact (documentation_failure_is_not_fatal (H := A) examples.demo_request
           examples.initial _ _ _ eq_refl eq_refl eq_refl eq_refl).
Defined.

Lemma validation_result_is_ignored_witness :
  let A := examples.scripted true true true 0 false in
  EvValidate false ∈
    trace (process_automation_request examples.demo_request examples.initial).1 ∧
  success (process_automation_request examples.demo_request examples.initial).2
    = true.
Proof.
  intros A.
  assert (trace (process_automation_request examples.demo_request
                   examples.initial).1 !! 6%nat = Some (EvValidate false)) as Hl
    by (vm_compute; reflexivity).
  pose proof (list_elem_of_lookup_2 _ 6 _ Hl) as Hin.
  split; [exact Hin|].
  exact (validation_result_is_ignored (H := A) examples.demo_request
           examples.initial false Hin).
Defined.

(** X26. A run that reports success returns the four artifacts of phase 3 and
    the inventory, its only possible error is the failure of the
    documentation generator, and its session is stored in the memory bank
    under the id of the request. *)
Theorem successful_run_delivers `{Agents} request st :
  let run := process_automation_request request st in
  success run.2 = true →
  Forall (λ k, is_Some (artifacts run.2 !! k))
    ["code_review"; "ansible_playbook"; "tests"; "cicd_pipeline"; "inventory"] ∧
  (errors run.2 = [] ∨
   ∃ e, errors run.2 = ["Documentation generation failed: " +:+ e]) ∧
  memory_bank run.1 !! session_id request = Some (session run.1) ∧
  session_manager.session_id (session run.1) = session_id request.
Proof.
  pose proof (process_automation_request_run request st) as Hrun.
  cbn zeta in Hrun. destruct (process_automation_request request st) as [st' result].
  cbn zeta. cbn [fst snd]. intros Hok.
  destruct (outcome (parse_specification _)) as [e|pr];
    [destruct Hrun as ((? & _) & _); congruence|].
  destruct (valid pr); [|destruct Hrun as ((? & _) & _); congruence].
  cbn zeta in Hrun.
  destruct (outcome (generate_playbook _)) as [e|pb];
    [destruct Hrun as ((? & _) & _); congruence|].
  destruct Hrun as (tr & _ & _ & _ & _ & Hrun). rewrite Hok in Hrun.
  destruct Hrun as (_ & Herr & Hkeys & Hinv & _ & Hid & Hbank & _).
  split_and!.
  - unfold phase_3_keys in Hkeys.
    repeat (apply Forall_cons in Hkeys as [? Hkeys]).
    repeat constructor; try done; by rewrite Hinv.
  - rewrite Herr. destruct (outcome (generate_documentation _)); eauto.
  - by rewrite Hbank, lookup_insert_eq.
  - done.
Qed.

Lemma successful_run_delivers_witness :
  let A := examples.scripted true false true 1 true in
  let run := process_automation_request examples.demo_request examples.initial in
  success run.2 = true ∧
  Forall (λ k, is_Some (artifacts run.2 !! k))
    ["code_review"; "ansible_playbook"; "tests"; "cicd_pipeline"; "inventory"] ∧
  (errors run.2 = [] ∨
   ∃ e, errors run.2 = ["Documentation generation failed: " +:+ e]) ∧
  memory_bank run.1 !! "run_1" = Some (session run.1) ∧
  session_manager.session_id (session run.1) = "run_1".
Proof.
  intros A run.
  assert (success run.2 = true) as Hok by (vm_compute; reflexivity).
  split; [exact Hok|].
  exact (successful_run_delivers (H := A) examples.demo_request
           examples.initial Hok).
Defined.

(** X27. How a failed run is accounted for in the metrics log.  The request is
    always recorded as started.  When the specification is invalid or the
    playbook generator raises, that is all: the request stays ["started"]
    and no error record is written.  When an exception reaches the
    [except] block, [record_request_failed] is called with its message, and
    the last error of the result is ["Orchestration error: "] followed by
    that message. *)
Theorem failed_run_accounting `{Agents} request st :
  let log0 :=
    logger.record_request_started (now (S (S (clock st))))
      (session_id request) (collector st) in
  let run := process_automation_request request st in
  success run.2 = false →
  ((last (errors run.2) = Some "Specification validation failed" ∨
    ∃ e, last (errors run.2) = Some ("Ansible generation failed: " +:+ e)) ∧
   collector run.1 = log0) ∨
  (∃ e t t',
     last (errors run.2) = Some ("Orchestration error: " +:+ e) ∧
     collector run.1 =
       logger.record_request_failed t t' (session_id request) e log0).
Proof.
  intros log0. subst log0.
  pose proof (process_automation_request_run request st) as Hrun.
  cbn zeta in Hrun. destruct (process_automation_request request st) as [st' result].
  cbn zeta. cbn [fst snd]. intros Hfail.
  destruct (outcome (parse_specification _)) as [e|pr].
  { destruct Hrun as (_ & -> & _ & _ & t & t' & ->). right. by exists e, t, t'. }
  destruct (valid pr).
  2: { destruct Hrun as (_ & -> & _ & _ & ->). left. split; [by left|done]. }
  cbn zeta in Hrun.
  destruct (outcome (generate_playbook _)) as [e|pb].
  { destruct Hrun as (_ & -> & _ & _ & ->). left. split; [|done].
    right. exists e. by rewrite last_snoc. }
  destruct Hrun as (tr & _ & _ & _ & _ & Hrun). rewrite Hfail in Hrun.
  destruct Hrun as (_ & _ & _ & e & -> & t & t' & ->).
  right. exists e, t, t'. by rewrite last_snoc.
Qed.

Lemma failed_run_accounting_witness :
  let A := examples.scripted true true false 0 true in
  let log0 := logger.record_request_started 2000000 "run_1" logger.empty_collector in
  let run := process_automation_request examples.demo_request examples.initial in
  success run.2 = false ∧
  (((last (errors run.2) = Some "Specification validation failed" ∨
     ∃ e, last (errors run.2) = Some ("Ansible generation failed: " +:+ e)) ∧
    collector run.1 = log0) ∨
   (∃ e t t',
      last (errors run.2) = Some ("Orchestration error: " +:+ e) ∧
      collector run.1 = logger.record_request_failed t t' "run_1" e log0)).
Proof.
  intros A log0 run.
  assert (success run.2 = false) as Hfail by (vm_compute; reflexivity).
  split; [exact Hfail|].
  exact (failed_run_accounting (H := A) examples.demo_request examples.initial
           Hfail).
Defined.

(** X29. [_validate_artifacts] returns [True] exactly when each of the four
    required artifacts is present and its file exists; the
    ["documentation"] and ["inventory"] artifacts play no part, and the
    check changes nothing in the state of the engine but the trace. *)
Theorem validate_artifacts_true_iff `{Agents} arts st :
  ((_validate_artifacts arts st).2 = inr true ↔
   ∀ k, k ∈ ["ansible_playbook"; "code_review"; "tests"; "cicd_pipeline"] →
        ∃ path, arts !! k = Some path ∧ path_exists path = true) ∧
  (∃ ok, (_validate_artifacts arts st).2 = inr ok ∧
         (_validate_artifacts arts st).1 = set_trace (trace st ++ [EvValidate ok]) st).
Proof.
  split; [|by eexists].
  unfold _validate_artifacts. cbn [snd].
  generalize ["ansible_playbook"; "code_review"; "tests"; "cicd_pipeline"].
  intros required. induction required as [|k required IH]; cbn [validate_required].
  - split; [intros _ k Hk; by apply elem_of_nil in Hk|done].
  - destruct (arts !! k) as [path|] eqn:Hk.
    + destruct (path_exists path) eqn:Hp.
      * rewrite IH. split.
        -- intros Hall k' [->|Hk']%elem_of_cons; eauto.
        -- intros Hall k' Hk'. apply Hall. by right.
      * split; [done|]. intros Hall.
        destruct (Hall k) as (path' & Hk'' & Hp'); [by left|]. congruence.
    + split; [done|]. intros Hall.
      destruct (Hall k) as (path' & Hk'' & Hp'); [by left|]. congruence.
Qed.

End engine_facts.

(** ** More on the context store and the session manager *)

Module store_facts.
Import session_manager.

(** X1. Reading a context key after [add_context]: the key just written holds
    the new value, every other key reads as before (a key that was never
    written reads as the default). *)
Theorem get_context_add_context now k v s k' d :
  get_context k' d (add_context now k v s) =
    if decide (k' = k) then v else get_context k' d s.
Proof.
  unfold get_context, add_context. cbn.
  case_decide as Hk; [subst; by rewrite lookup_insert_eq|].
  by rewrite lookup_insert_ne.
Qed.

(** X2. Reading a counter after [increment_metric]: the counter incremented is
    its old value, 0 if it did not exist, plus the amount, whatever default
    the reader passes; the other counters read as before.  Two increments
    of one counter amount to one increment by the sum. *)
Theorem get_metric_increment_metric name amount s name' d amount' :
  get_metric name' d (increment_metric name amount s) =
    (if decide (name' = name) then get_metric name 0 s + amount
     else get_metric name' d s) ∧
  increment_metric name amount' (increment_metric name amount s) =
    increment_metric name (amount + amount') s.
Proof.
  split.
  - unfold get_metric, increment_metric. cbn.
    case_decide as Hn.
    + subst. rewrite lookup_insert_eq.
      destruct (metrics s !! name) as [n|] eqn:Hm; [by rewrite Hm|].
      by rewrite lookup_insert_eq.
    + rewrite lookup_insert_ne by done.
      destruct (metrics s !! name); [done|]. by rewrite lookup_insert_ne.
  - unfold increment_metric. cbn. rewrite !lookup_insert_eq. cbn.
    rewrite insert_insert_eq.
    destruct (metrics s !! name) as [n|] eqn:Hm.
    + rewrite Hm. unfold set_metrics. cbn. by rewrite Z.add_assoc.
    + rewrite lookup_insert_eq, insert_insert_eq. unfold set_metrics. cbn.
      by rewrite ?insert_insert_eq, ?Z.add_assoc.
Qed.

Lemma scan_recent_acc N entries acc k :
  k ∈ acc → k ∈ scan_recent N entries acc.
Proof.
  revert acc. induction entries as [|e entries IH]; intros acc Hk; cbn; [done|].
  destruct (decide (action e = "context_added")); [|by apply IH].
  assert (k ∈ (if decide (key e ∈ acc) then acc else acc ++ [key e])) as Hk'.
  { destruct (decide (key e ∈ acc)); [done|]. apply elem_of_app. by left. }
  destruct (decide (N ≤ _)); [done|]. by apply IH.
Qed.

Lemma scan_recent_length N entries acc :
  1 ≤ N → (length acc < Z.to_nat N)%nat →
  (length (scan_recent N entries acc) ≤ Z.to_nat N)%nat.
Proof.
  intros HN. revert acc.
  induction entries as [|e entries IH]; intros acc Hacc; cbn; [lia|].
  destruct (decide (action e = "context_added")); [|by apply IH].
  destruct (decide (key e ∈ acc)).
  - destruct (decide (N ≤ _)); [lia|]. by apply IH.
  - destruct (decide (N ≤ _)) as [Hlen|Hlen].
    + rewrite length_app. cbn. lia.
    + apply IH. rewrite length_app in *. cbn in *. lia.
Qed.

Lemma size_list_to_set_le (l : list string) :
  (size (list_to_set (C := gset string) l) ≤ length l)%nat.
Proof.
  induction l as [|x l IH]; cbn; [by rewrite size_empty|].
  destruct (decide (x ∈ (list_to_set l : gset string))).
  - rewrite subseteq_union_1_L by set_solver. lia.
  - rewrite size_union by set_solver. rewrite size_singleton. lia.
Qed.

Lemma size_filter_keys (c : gmap string pyval) (ks : list string) :
  (size (filter (λ kv : string * pyval, kv.1 ∈ ks) c) ≤ length ks)%nat.
Proof.
  rewrite <- size_dom, session_facts.dom_filter_keys.
  etrans; [apply subseteq_size, intersection_subseteq_r|].
  apply size_list_to_set_le.
Qed.

(** X4. For [keep_recent >= 1], whatever the store holds, [compact_context]
    leaves at most [keep_recent] keys, and compacting once more with the
    same bound changes nothing (not even the ["compacted_items"] record of
    the first compaction). *)
Theorem compact_context_bound N s :
  1 ≤ N →
  Z.of_nat (size (context (compact_context N s))) ≤ N ∧
  compact_context N (compact_context N s) = compact_context N s.
Proof.
  intros HN.
  assert (Z.of_nat (size (context (compact_context N s))) ≤ N) as Hsize.
  { unfold compact_context. case_decide as Hgt; [|lia]. cbn.
    pose proof (size_filter_keys (context s)
                  (scan_recent N (reverse (history s)) [])) as H1.
    pose proof (scan_recent_length N (reverse (history s)) [] HN) as H2.
    cbn in H2. lia. }
  split; [done|].
  unfold compact_context at 1. by rewrite decide_False by lia.
Qed.

Lemma compact_context_bound_witness :
  Z.of_nat (size (context (compact_context 3 examples.ten_keys))) ≤ 3 ∧
  compact_context 3 (compact_context 3 examples.ten_keys) =
    compact_context 3 examples.ten_keys.
Proof. apply compact_context_bound. lia. Defined.

(** X5. What a compaction that runs does to the store: it removes keys and
    changes no value, it writes under ["compacted_items"] exactly the keys
    it removed, each with the name of the type of its value, and it leaves
    the counters, the history and the other metadata alone.  A compaction
    that does not run, because the store holds no more than [keep_recent]
    keys, changes nothing at all. *)
Theorem compact_context_removes_and_records N s :
  let s' := compact_context N s in
  if decide (N < Z.of_nat (size (context s))) then
    context s' ⊆ context s ∧
    (∃ removed,
       metadata s' = <["compacted_items" := PyDict removed]> (metadata s) ∧
       ∀ k, removed !! k =
            if decide (is_Some (context s' !! k)) then None
            else (λ v, PyStr (type_name v)) <$> context s !! k) ∧
    metrics s' = metrics s ∧ history s' = history s ∧
    session_id s' = session_id s ∧ created_at s' = created_at s
  else s' = s.
Proof.
  cbn zeta. unfold compact_context. case_decide as Hgt; [|done]. cbn.
  split; [apply map_filter_subseteq|]. split; [|done].
  eexists. split; [reflexivity|]. intros k.
  rewrite lookup_fmap.
  destruct (context s !! k) as [v|] eqn:Hk.
  - destruct (decide (k ∈ scan_recent N (reverse (history s)) [])) as [Hin|Hin].
    + rewrite decide_True.
      * rewrite map_lookup_filter_None_2; [done|]. right. intros v' ?. cbn. tauto.
      * exists v. by apply map_lookup_filter_Some.
    + rewrite decide_False.
      * erewrite map_lookup_filter_Some_2; [done..|]. done.
      * intros [v' Hv']. by apply map_lookup_filter_Some in Hv' as [_ ?].
  - rewrite decide_False.
    + rewrite map_lookup_filter_None_2; [done|]. by left.
    + intros [v' Hv']. apply map_lookup_filter_Some in Hv' as [? _]. congruence.
Qed.

(** X6. The value written last survives any compaction, whatever the bound
    (zero and negative bounds included) and whatever the store held. *)
Theorem latest_context_survives_compaction N now k v s d :
  get_context k d (compact_context N (add_context now k v s)) = v.
Proof.
  unfold get_context, compact_context. case_decide as Hgt.
  - cbn [context set_metadata set_context].
    erewrite map_lookup_filter_Some_2; [done|by cbn; rewrite lookup_insert_eq|].
    cbn [fst history add_context set_history set_context].
    rewrite reverse_app. cbn [reverse rev_append app scan_recent action key].
    rewrite decide_True by done.
    rewrite !(decide_False (P := k ∈ [])) by (by intros ?%elem_of_nil).
    destruct (decide (N ≤ _)); [set_solver|]. apply scan_recent_acc. set_solver.
  - cbn. by rewrite lookup_insert_eq.
Qed.

(** X7. Creating a session under an id registers a fresh session under that id:
    [get_session] returns it, with no context, counter or history, even
    when a session was active under the same id, which is then dropped.
    The other sessions and the memory bank are left alone; in particular
    what was stored under that id stays in the bank. *)
Theorem create_session_get_session now sid md m sid' :
  let '(m', session) := create_session now sid md m in
  get_session sid' m' =
    (if decide (sid' = sid) then Some session else get_session sid' m) ∧
  session = new_session sid now (default ∅ md) ∧
  memory_bank m' = memory_bank m.
Proof.
  unfold create_session, get_session. cbn. split; [|done].
  case_decide; [subst; by rewrite lookup_insert_eq|by rewrite lookup_insert_ne].
Qed.

(** Storing a session puts it in the memory bank under its own id,
    replacing what was stored under that id, and leaves the active sessions
    and the other entries alone; clearing the bank empties it and leaves
    the active sessions alone. *)
Theorem store_session_memory_bank session m sid :
  memory_bank (store_session session m) !! sid =
    (if decide (sid = session_id session) then Some session
     else memory_bank m !! sid) ∧
  sessions (store_session session m) = sessions m ∧
  memory_bank (clear_memory_bank (store_session session m)) = ∅ ∧
  sessions (clear_memory_bank (store_session session m)) = sessions m.
Proof.
  unfold store_session, clear_memory_bank. cbn. split; [|done].
  case_decide; [subst; by rewrite lookup_insert_eq|by rewrite lookup_insert_ne].
Qed.

(** On every store built through the [Session] methods and for every
    [keep_recent >= 1] smaller than the number of keys, [compact_context]
    keeps exactly the [keep_recent] most recently written keys. *)
Lemma compact_context_keeps_recency_set_witness :
  let s := examples.ten_keys in
  let R := recency_set 3 (history s) in
  let s' := compact_context 3 s in
  dom (context s') = list_to_set R ∧
  Z.of_nat (size (context s')) = 3 ∧
  context s' = filter (λ kv : string * pyval, kv.1 ∈ R) (context s) ∧
  metadata s' !! "compacted_items" =
    Some (PyDict ((λ v, PyStr (type_name v)) <$>
                    filter (λ kv : string * pyval, kv.1 ∉ R) (context s))) ∧
  history s' = history s.
Proof.
  apply session_facts.compact_context_keeps_recency_set.
  - unfold examples.ten_keys, examples.add_all, examples.keys_0_9, examples.fresh.
    cbn [foldl].
    repeat (apply (reach_op (OpAddContext _ _ _))). apply reach_new.
  - lia.
  - vm_compute. reflexivity.
Defined.

End store_facts.

(** ** More on the metrics log: the summary and the tracer *)

Module summary_facts.
Import logger.

Lemma length_update_first_started sid update reqs :
  length (update_first_started sid update reqs) = length reqs.
Proof.
  induction reqs as [|r reqs IH]; cbn; [done|]. case_decide; cbn; congruence.
Qed.

(** Closing the first started record moves one record from ["started"] to
    the new status. *)
Lemma count_status_update sid update reqs new x :
  (∀ r, status (update r) = new) → x ≠ "started" →
  Exists (is_started sid) reqs →
  length (filter (λ r, status r = x) (update_first_started sid update reqs)) =
    ((if decide (x = new) then 1 else 0) +
     length (filter (λ r, status r = x) reqs))%nat.
Proof.
  intros Hnew Hx. induction 1 as [r reqs Hr|r reqs Hex IH]; cbn.
  - rewrite decide_True by done. destruct Hr as [_ Hst].
    rewrite !filter_cons, Hnew.
    rewrite (decide_False (P := status r = x)) by congruence.
    destruct (decide (new = x)) as [->|];
      [rewrite decide_True by done|rewrite decide_False by done]; done.
  - destruct (decide (is_started sid r)) as [[_ Hst]|Hno].
    + rewrite !filter_cons, Hnew.
      rewrite (decide_False (P := status r = x)) by congruence.
      destruct (decide (new = x)) as [->|];
        [rewrite decide_True by done|rewrite decide_False by done]; done.
    + rewrite !filter_cons.
      destruct (decide (status r = x)); cbn [length]; rewrite IH;
        rewrite ?Nat.add_succ_r; reflexivity.
Qed.

Lemma count_status_started sid (reqs : list Request) t x :
  x ≠ "started" →
  filter (λ r, status r = x)
    (reqs ++ [{| session_id := sid; status := "started"; timestamp := t;
                 execution_time := None; artifacts_count := None;
                 completed_at := None; error := None; failed_at := None |}]) =
  filter (λ r, status r = x) reqs.
Proof.
  intros Hx. rewrite filter_app, filter_cons. cbn [status].
  rewrite decide_False by congruence. by rewrite filter_nil, app_nil_r.
Qed.

Lemma started_Exists sid (reqs : list Request) t :
  Exists (is_started sid)
    (reqs ++ [{| session_id := sid; status := "started"; timestamp := t;
                 execution_time := None; artifacts_count := None;
                 completed_at := None; error := None; failed_at := None |}]).
Proof. apply Exists_app. right. by constructor. Qed.

(** X8. On any log, a request that is started and then completed adds one to
    the total and one to the completed requests of the summary; started and
    then failed, it adds one to the total, one to the failed requests and
    one to the errors.  (The record that is closed need not be the one just
    started.) *)
Theorem request_lifecycle_counts t now now' sid duration count msg m :
  let m1 := record_request_started t sid m in
  let m2 := record_request_completed now sid duration count m1 in
  let m3 := record_request_failed now now' sid msg m1 in
  (total_requests m2 = S (total_requests m) ∧
   completed_requests m2 = S (completed_requests m) ∧
   failed_requests m2 = failed_requests m ∧
   total_errors m2 = total_errors m) ∧
  (total_requests m3 = S (total_requests m) ∧
   completed_requests m3 = completed_requests m ∧
   failed_requests m3 = S (failed_requests m) ∧
   total_errors m3 = S (total_errors m)).
Proof.
  cbn zeta.
  unfold total_requests, completed_requests, failed_requests, total_errors,
    record_request_completed, record_request_failed, record_request_started.
  cbn [requests errors set_requests].
  rewrite !length_update_first_started, !length_app. cbn [length].
  rewrite !(count_status_update sid _ _ "completed") by (done || apply started_Exists).
  rewrite !(count_status_update sid _ _ "failed") by (done || apply started_Exists).
  rewrite !count_status_started by done.
  repeat case_decide; try done. repeat split; lia.
Qed.

(** X9. Failing a request whose id has no started record in the log still
    writes an error record: the requests are left as they are, so the
    failed requests of the summary do not change while its errors grow by
    one. *)
Theorem failure_without_started_request now now' sid msg m :
  Forall (λ r, ¬ is_started sid r) (requests m) →
  let m' := record_request_failed now now' sid msg m in
  requests m' = requests m ∧
  failed_requests m' = failed_requests m ∧
  total_errors m' = S (total_errors m) ∧
  errors m' =
    errors m ++
    [{| err_session_id := sid; err_error := msg; err_timestamp := now' |}].
Proof.
  intros Hno. cbn zeta.
  unfold failed_requests, total_errors, record_request_failed.
  cbn [requests errors].
  rewrite logger_facts.update_first_started_none by done.
  rewrite length_app. cbn. repeat split; lia.
Qed.

Lemma failure_without_started_request_witness :
  let m' := record_request_failed 8 9 "run_1" "boom" examples.closed_once in
  requests m' = requests examples.closed_once ∧
  failed_requests m' = failed_requests examples.closed_once ∧
  total_errors m' = S (total_errors examples.closed_once) ∧
  errors m' =
    errors examples.closed_once ++
    [{| err_session_id := "run_1"; err_error := "boom"; err_timestamp := 9 |}].
Proof.
  apply failure_without_started_request.
  repeat constructor; intros [Hi Hs]; vm_compute in Hi, Hs; discriminate.
Defined.

Lemma update_first_started_other sid update reqs i r :
  reqs !! i = Some r → ¬ is_started sid r →
  update_first_started sid update reqs !! i = Some r.
Proof.
  revert i. induction reqs as [|r' reqs IH]; intros i Hi Hr; [done|]. cbn.
  destruct i as [|i]; cbn in Hi.
  - injection Hi as ->. by rewrite decide_False.
  - case_decide; [done|]. cbn. by apply IH.
Qed.

(** X10. Neither [record_request_completed] nor [record_request_failed] ever
    touches a record that is not a started record of the id it is given:
    closed records and the records of other ids stay as they are, at their
    position, and no record is added or removed. *)
Theorem only_started_requests_change now now' sid duration count msg m i r :
  requests m !! i = Some r → ¬ is_started sid r →
  requests (record_request_completed now sid duration count m) !! i = Some r ∧
  requests (record_request_failed now now' sid msg m) !! i = Some r ∧
  length (requests (record_request_completed now sid duration count m)) =
    length (requests m) ∧
  length (requests (record_request_failed now now' sid msg m)) =
    length (requests m).
Proof.
  intros Hi Hr. unfold record_request_completed, record_request_failed.
  cbn [requests set_requests].
  rewrite !length_update_first_started.
  repeat split; by apply update_first_started_other.
Qed.

Lemma only_started_requests_change_witness :
  let m := examples.closed_once in
  let r := mark_completed 2000000 5 3
             {| session_id := "run_1"; status := "started"; timestamp := 1;
                execution_time := None; artifacts_count := None;
                completed_at := None; error := None; failed_at := None |} in
  requests (record_request_completed 8 "run_1" 1000000 5 m) !! 0%nat = Some r ∧
  requests (record_request_failed 8 9 "run_1" "boom" m) !! 0%nat = Some r ∧
  length (requests (record_request_completed 8 "run_1" 1000000 5 m)) =
    length (requests m) ∧
  length (requests (record_request_failed 8 9 "run_1" "boom" m)) =
    length (requests m).
Proof.
  intros m r.
  apply (only_started_requests_change 8 9 "run_1" 1000000 5 "boom" m 0 r).
  - vm_compute. reflexivity.
  - intros [_ Hs]. vm_compute in Hs. discriminate.
Defined.

Lemma agent_statistics_snoc calls call :
  foldl count_call ∅ (calls ++ [call]) =
    count_call (foldl count_call ∅ calls) call.
Proof. by rewrite foldl_app. Qed.

(** X11. The agent statistics of the summary list exactly the agents that were
    called, each with the number of its calls and the number of those that
    were successful. *)
Theorem agent_statistics_counts m agent :
  let calls := filter (λ c, call_agent c = agent) (agent_calls m) in
  agent_statistics m !! agent =
    if decide (calls = []) then None
    else Some {| total_calls := length calls;
                 successful_calls :=
                   length (filter (λ c, call_success c = true) calls) |}.
Proof.
  cbn zeta. unfold agent_statistics.
  induction (agent_calls m) as [|call calls IH] using rev_ind; [done|].
  rewrite agent_statistics_snoc, filter_app, filter_cons, filter_nil.
  set (stats0 := foldl count_call ∅ calls) in *.
  set (F := filter (λ c, call_agent c = agent) calls) in *.
  unfold count_call.
  destruct (decide (call_agent call = agent)) as [Ha|Ha].
  - rewrite Ha, lookup_insert_eq.
    rewrite decide_False by (by intros [_ ?]%app_eq_nil).
    assert (default {| total_calls := 0; successful_calls := 0 |}
              (match stats0 !! agent with
               | Some _ => stats0
               | None =>
                   <[agent := {| total_calls := 0; successful_calls := 0 |}]>
                     stats0
               end !! agent) =
            {| total_calls := length F;
               successful_calls :=
                 length (filter (λ c, call_success c = true) F) |}) as ->.
    { destruct (decide (F = [])) as [HF|HF]; rewrite IH.
      - rewrite lookup_insert_eq. cbn. by rewrite HF.
      - by rewrite IH. }
    cbn [total_calls successful_calls].
    rewrite filter_app, !length_app, filter_cons, filter_nil. cbn [length].
    destruct (call_success call);
      [rewrite decide_True by done|rewrite decide_False by done];
      cbn [length]; do 2 f_equal; lia.
  - rewrite app_nil_r.
    destruct (stats0 !! call_agent call);
      rewrite !lookup_insert_ne by done; done.
Qed.

(** The three calls of the test of the repository: two successes and a
    failure of one agent. *)
Example agent_statistics_of_three_calls :
  agent_statistics
    (record_agent_call 3 "test_agent" "session_1" 1000000 false
       (record_agent_call 2 "test_agent" "session_1" 2000000 true
          (record_agent_call 1 "test_agent" "session_1" 1500000 true
             empty_collector)))
    !! "test_agent" = Some {| total_calls := 3; successful_calls := 2 |}.
Proof. vm_compute. reflexivity. Qed.

End summary_facts.

(** ** The tracer *)

Module tracer_facts.
Import logger.

Lemma update_first_running_none op update records :
  Forall (λ r, ¬ is_running op r) records →
  update_first_running op update records = records.
Proof.
  induction 1 as [|r records Hr _ IH]; cbn; [done|].
  rewrite decide_False by done. by rewrite IH.
Qed.

(** What [end_trace] does to the records of a session, by the last of
    them. *)
Lemma end_trace_records_snoc op update records r :
  reverse (update_first_running op update (reverse (records ++ [r]))) =
    if decide (is_running op r) then records ++ [update r]
    else reverse (update_first_running op update (reverse records)) ++ [r].
Proof.
  rewrite reverse_snoc. cbn [update_first_running]. case_decide.
  - by rewrite reverse_cons, reverse_involutive.
  - by rewrite reverse_cons.
Qed.

Lemma end_trace_records_most_recent op update records :
  Exists (is_running op) records →
  ∃ i r, most_recent_running op records i ∧ records !! i = Some r ∧
    reverse (update_first_running op update (reverse records)) =
      <[i := update r]> records.
Proof.
  induction records as [|x records IH] using rev_ind;
    [by intros ?%Exists_nil|].
  intros Hex. rewrite end_trace_records_snoc.
  destruct (decide (is_running op x)) as [Hx|Hx].
  - exists (length records), x. split; [split|split].
    + exists x. by rewrite list_lookup_middle.
    + intros j r Hj Hl. apply lookup_lt_Some in Hl.
      rewrite length_app in Hl. cbn in Hl. lia.
    + by rewrite list_lookup_middle.
    + rewrite insert_app_r_alt by lia. by rewrite Nat.sub_diag.
  - apply Exists_app in Hex as [Hex|Hex];
      [|by apply Exists_cons in Hex as [?|?%Exists_nil]].
    destruct (IH Hex) as (i & r & [(r' & Hi' & Hr') Hlater] & Hi & ->).
    pose proof (lookup_lt_Some _ _ _ Hi) as Hlt.
    exists i, r. split; [split|split].
    + exists r'. by rewrite lookup_app_l.
    + intros j r'' Hj Hl.
      destruct (decide (j < length records)%nat) as [Hjl|Hjl].
      * rewrite lookup_app_l in Hl by done. by eapply Hlater.
      * apply lookup_lt_Some in Hl as Hjl'. rewrite length_app in Hjl'.
        cbn in Hjl'. assert (j = length records) as -> by lia.
        rewrite list_lookup_middle in Hl by done. by injection Hl as <-.
    + by rewrite lookup_app_l.
    + by rewrite insert_app_l.
Qed.

(** X12. Unlike the metrics log, which closes the oldest started record,
    [end_trace] ends the most recent running record of the operation in the
    session, and only that one: the other records of the session and the
    other sessions are left as they are. *)
Theorem end_trace_ends_most_recent now sid op success t records :
  t !! sid = Some records →
  Exists (is_running op) records →
  ∃ i r, most_recent_running op records i ∧ records !! i = Some r ∧
    get_trace sid (end_trace now sid op success t) =
      <[i := mark_ended now success r]> records ∧
    ∀ sid', sid' ≠ sid →
      end_trace now sid op success t !! sid' = t !! sid'.
Proof.
  intros Hsid Hex. unfold end_trace, get_trace. rewrite Hsid.
  destruct (end_trace_records_most_recent op (mark_ended now success) records Hex)
    as (i & r & Hi & Hr & ->).
  exists i, r. split_and!; try done.
  - by rewrite (lookup_insert_eq t sid).
  - intros sid' Hne. by rewrite (lookup_insert_ne t sid).
Qed.

Lemma end_trace_ends_most_recent_witness :
  let records := get_trace "run_1" examples.traced_twice in
  ∃ i r, most_recent_running "review" records i ∧ records !! i = Some r ∧
    get_trace "run_1"
      (end_trace 3 "run_1" "review" true examples.traced_twice) =
      <[i := mark_ended 3 true r]> records ∧
    ∀ sid', sid' ≠ "run_1" →
      end_trace 3 "run_1" "review" true examples.traced_twice !! sid' =
        examples.traced_twice !! sid'.
Proof.
  intros records.
  apply (end_trace_ends_most_recent 3 "run_1" "review" true
           examples.traced_twice records).
  - vm_compute. reflexivity.
  - apply Exists_exists. eexists. split.
    + apply (list_elem_of_lookup_2 _ 0). vm_compute. reflexivity.
    + split; reflexivity.
Defined.

(** X13. When the session is unknown to the tracer, or has no running record of
    the operation, [end_trace] changes nothing; in particular it does not
    register the session. *)
Theorem end_trace_without_running_record now sid op success t :
  Forall (λ r, ¬ is_running op r) (get_trace sid t) →
  end_trace now sid op success t = t.
Proof.
  unfold end_trace, get_trace. destruct (t !! sid) as [records|] eqn:Hsid; [|done].
  cbn. intros Hno.
  rewrite update_first_running_none by (by apply Forall_reverse).
  rewrite reverse_involutive. by apply insert_id.
Qed.

Lemma end_trace_without_running_record_witness :
  end_trace 3 "run_2" "review" true examples.traced_twice =
    examples.traced_twice ∧
  end_trace 3 "run_1" "deploy" true examples.traced_twice =
    examples.traced_twice.
Proof.
  split; apply end_trace_without_running_record.
  - vm_compute. constructor.
  - apply Forall_forall. intros r Hr [Hop _].
    apply list_elem_of_lookup_1 in Hr as [i Hi].
    destruct i as [|[|i]]; vm_compute in Hi; [| |discriminate];
      injection Hi as <-; discriminate Hop.
Defined.

(** X14. A trace that is started and ended at once: the record just started is
    the one that is ended, after the records the session already had, which
    are left as they are even when they are running records of the same
    operation. *)
Theorem start_trace_then_end_trace now now' sid op success t :
  get_trace sid (end_trace now' sid op success (start_trace now sid op t)) =
    get_trace sid t ++
    [{| operation := op; start_time := now;
        trace_status := if success then "completed" else "failed";
        end_time := Some now' |}] ∧
  ∀ sid', sid' ≠ sid →
    get_trace sid' (end_trace now' sid op success (start_trace now sid op t)) =
      get_trace sid' t.
Proof.
  unfold end_trace, start_trace, get_trace.
  set (t0 := match t !! sid with Some _ => t | None => <[sid := []]> t end).
  assert (default [] (t0 !! sid) = default [] (t !! sid)) as Hsame.
  { subst t0. destruct (t !! sid) eqn:Hs; [by rewrite Hs|].
    by rewrite (lookup_insert_eq t sid). }
  assert (∀ sid', sid' ≠ sid → t0 !! sid' = t !! sid') as Hother.
  { intros sid' Hne. subst t0. destruct (t !! sid); [done|].
    by rewrite (lookup_insert_ne t sid). }
  rewrite Hsame. set (records := default [] (t !! sid)).
  rewrite (lookup_insert_eq t0 sid), end_trace_records_snoc.
  rewrite decide_True by done.
  split.
  - by rewrite (lookup_insert_eq (<[sid := _]> t0) sid).
  - intros sid' Hne.
    rewrite (lookup_insert_ne (<[sid := _]> t0) sid) by done.
    rewrite (lookup_insert_ne t0 sid) by done. by rewrite Hother.
Qed.

End tracer_facts.

(** ** The specification parser *)

Module parser_facts.
Import spec_parser.

Lemma missing_fields_dict fields a :
  missing_fields fields (PyDict a) = inr (filter (λ f, a !! f = None) fields).
Proof.
  induction fields as [|f fields IH]; [done|].
  cbn [missing_fields py_in]. rewrite IH, filter_cons.
  destruct (a !! f) as [v|] eqn:Hf.
  - rewrite bool_decide_true by done. by rewrite decide_False.
  - rewrite bool_decide_false by (by intros [? ?]). by rewrite decide_True.
Qed.

Lemma validate_list_valid a field m1 m2 rest v :
  validate_list (PyDict a) field m1 m2 rest = inr v → valid v = true →
  (∃ l, a !! field = Some (PyList l) ∧ l ≠ []) ∧ rest = inr v.
Proof.
  unfold validate_list, py_getitem.
  destruct (a !! field) as [[| | | |l|]|]; cbn; try (intros [= <-]; done).
  destruct l; cbn; [intros [= <-]; done|].
  intros -> _. split; [|done]. by eexists.
Qed.

Lemma validate_structure_valid_shape spec v :
  _validate_structure spec = inr v → valid v = true →
  ∃ a, well_formed spec a.
Proof.
  unfold _validate_structure. intros Hv Hvalid.
  destruct spec as [| | |s|l|d]; cbn [py_in py_getitem] in Hv; try discriminate.
  { destruct (is_substring _ _); [discriminate|].
    injection Hv as <-. discriminate. }
  { destruct (existsb _ _); [discriminate|].
    injection Hv as <-. discriminate. }
  destruct (d !! "automation_spec") as [a|] eqn:Hd.
  2: { rewrite bool_decide_false in Hv by (by intros [? ?]).
       injection Hv as <-. discriminate. }
  rewrite bool_decide_true in Hv by done.
  destruct a as [| | |s|l|a].
  1-3: discriminate.
  { cbn in Hv. repeat (destruct (is_substring _ s); cbn in Hv);
      try discriminate; injection Hv as <-; discriminate. }
  { cbn in Hv. repeat (destruct (existsb _ l); cbn in Hv);
      try discriminate; injection Hv as <-; discriminate. }
  rewrite missing_fields_dict in Hv.
  destruct (filter _ required) as [|f fs] eqn:Hmissing;
    [|injection Hv as <-; discriminate].
  apply validate_list_valid in Hv as [(devices & Hdev & Hne) Hv]; [|done].
  apply validate_list_valid in Hv as [(tasks & Htasks & Hne') _]; [|done].
  exists a, d, devices, tasks. split_and!; try done.
  - destruct (a !! "name") eqn:Hn; [done|].
    unfold required in Hmissing. rewrite filter_cons, decide_True in Hmissing by done.
    discriminate.
  - destruct (a !! "description") eqn:Hn; [done|].
    unfold required in Hmissing.
    rewrite filter_cons in Hmissing. case_decide; [discriminate|].
    rewrite filter_cons, decide_True in Hmissing by done. discriminate.
Qed.

Lemma well_formed_valid spec a :
  well_formed spec a →
  _validate_structure spec = inr {| valid := true; error := None |}.
Proof.
  intros (d & devices & tasks & -> & Hd & [n Hn] & [de Hde] & Hdev & Hne & Htasks & Hne').
  unfold _validate_structure. cbn [py_in py_getitem].
  rewrite Hd, bool_decide_true by done.
  rewrite missing_fields_dict. unfold required.
  rewrite !filter_cons, filter_nil, Hn, Hde, Hdev, Htasks.
  rewrite !decide_False by done.
  unfold validate_list, py_getitem. rewrite Hdev, Htasks. cbn.
  destruct devices; [done|]. destruct tasks; done.
Qed.

(** X15. [_validate_structure] returns [{"valid": True}] exactly for the
    specifications that are a dictionary whose ["automation_spec"] is a
    dictionary with a name, a description, a non-empty list of target
    devices and a non-empty list of tasks.  For every other value it
    returns [{"valid": False, ...}] or raises. *)
Theorem validate_structure_valid_iff spec :
  (∃ v, _validate_structure spec = inr v ∧ valid v = true) ↔
  ∃ a, well_formed spec a.
Proof.
  split.
  - intros (v & Hv & Hvalid). by eapply validate_structure_valid_shape.
  - intros [a Ha]. eexists. split; [by eapply well_formed_valid|done].
Qed.

Lemma extract_parameters_dict (d a : gmap string pyval) :
  d !! "automation_spec" = Some (PyDict a) →
  is_Some (a !! "name") → is_Some (a !! "description") →
  is_Some (a !! "target_devices") → is_Some (a !! "tasks") →
  ∃ params,
    _extract_parameters (PyDict d) = inr (PyDict params) ∧
    dom params =
      {[ "name"; "description"; "target_devices"; "tasks"; "requirements";
         "cicd"; "variables"; "handlers"; "tags"; "_ai_validation" ]} ∧
    params !! "name" = a !! "name" ∧
    params !! "description" = a !! "description" ∧
    params !! "target_devices" = a !! "target_devices" ∧
    params !! "tasks" = a !! "tasks" ∧
    params !! "_ai_validation" = Some (default (PyDict ∅) (d !! "_ai_validation")).
Proof.
  intros Hd [n Hn] [de Hde] [dev Hdev] [tasks Htasks].
  unfold _extract_parameters. cbn [py_getitem extract_entries py_get].
  rewrite Hd. cbn [py_getitem extract_entries py_get].
  rewrite Hn, Hde, Hdev, Htasks. cbn [app].
  eexists. split; [reflexivity|].
  cbn [list_to_map foldr fst snd curry uncurry]. 
  rewrite !dom_insert_L, dom_empty_L.
  split; [set_solver|].
  repeat split; by simplify_map_eq.
Qed.

(** X16. A specification accepted by [_validate_structure] can be handed to
    [_extract_parameters], before and after it is enriched with an
    ["_ai_validation"] entry: the call does not raise and returns the ten
    parameters, the four required ones as found in the specification. *)
Theorem valid_specification_is_extracted spec v :
  _validate_structure spec = inr v → valid v = true →
  ∃ d a,
    spec = PyDict d ∧ d !! "automation_spec" = Some (PyDict a) ∧
    ∀ spec',
      (spec' = spec ∨ ∃ ai, spec' = enrich d ai) →
      ∃ params,
        _extract_parameters spec' = inr (PyDict params) ∧
        dom params =
          {[ "name"; "description"; "target_devices"; "tasks"; "requirements";
             "cicd"; "variables"; "handlers"; "tags"; "_ai_validation" ]} ∧
        params !! "name" = a !! "name" ∧
        params !! "description" = a !! "description" ∧
        params !! "target_devices" = a !! "target_devices" ∧
        params !! "tasks" = a !! "tasks".
Proof.
  intros Hv Hvalid.
  destruct (validate_structure_valid_shape spec v Hv Hvalid)
    as (a & d & devices & tasks & -> & Hd & Hn & Hde & Hdev & _ & Htasks & _).
  exists d, a. split; [done|]. split; [done|].
  intros spec' [->|[ai ->]].
  - destruct (extract_parameters_dict d a Hd Hn Hde (mk_is_Some _ _ Hdev)
                (mk_is_Some _ _ Htasks))
      as (params & ? & ? & ? & ? & ? & ? & _).
    exists params. by split_and!.
  - unfold enrich.
    assert (<["_ai_validation" := ai]> d !! "automation_spec"
            = Some (PyDict a)) as Hd' by (by rewrite lookup_insert_ne).
    destruct (extract_parameters_dict _ a Hd' Hn Hde (mk_is_Some _ _ Hdev)
                (mk_is_Some _ _ Htasks))
      as (params & ? & ? & ? & ? & ? & ? & _).
    exists params. by split_and!.
Qed.

Lemma valid_specification_is_extracted_witness :
  ∃ d a,
    PyDict examples.vlan_spec = PyDict d ∧
    d !! "automation_spec" = Some (PyDict a) ∧
    ∀ spec',
      (spec' = PyDict examples.vlan_spec ∨ ∃ ai, spec' = enrich d ai) →
      ∃ params,
        _extract_parameters spec' = inr (PyDict params) ∧
        dom params =
          {[ "name"; "description"; "target_devices"; "tasks"; "requirements";
             "cicd"; "variables"; "handlers"; "tags"; "_ai_validation" ]} ∧
        params !! "name" = a !! "name" ∧
        params !! "description" = a !! "description" ∧
        params !! "target_devices" = a !! "target_devices" ∧
        params !! "tasks" = a !! "tasks".
Proof.
  apply (valid_specification_is_extracted (PyDict examples.vlan_spec)
           {| valid := true; error := None |}).
  - vm_compute. reflexivity.
  - reflexivity.
Defined.

(** X17. When the ["automation_spec"] dictionary lacks some of the four required
    fields, the specification is rejected with a message that lists the
    missing fields, all of them, in the order name, description,
    target_devices, tasks. *)
Theorem missing_fields_are_reported d a :
  d !! "automation_spec" = Some (PyDict a) →
  filter (λ f, a !! f = None) required ≠ [] →
  _validate_structure (PyDict d) =
    inr (invalid ("Missing required fields: " +:+
                  String.concat ", " (filter (λ f, a !! f = None) required))).
Proof.
  intros Hd Hmissing. unfold _validate_structure. cbn [py_in py_getitem].
  rewrite Hd, bool_decide_true by done.
  rewrite missing_fields_dict.
  by destruct (filter _ required).
Qed.

Lemma missing_fields_are_reported_witness :
  let a : gmap string pyval := {[ "name" := PyStr "test" ]} in
  let d : gmap string pyval := {[ "automation_spec" := PyDict a ]} in
  let missing := filter (λ f, a !! f = None) required in
  missing = ["description"; "target_devices"; "tasks"] ∧
  _validate_structure (PyDict d) =
    inr (invalid ("Missing required fields: " +:+ String.concat ", " missing)).
Proof.
  intros a d missing.
  assert (missing = ["description"; "target_devices"; "tasks"]) as Hm
    by (vm_compute; reflexivity).
  split; [exact Hm|].
  apply (missing_fields_are_reported d a).
  - vm_compute. reflexivity.
  - fold missing. rewrite Hm. discriminate.
Defined.

End parser_facts.

(** ** The code reviewer and the refinement prompt *)

Module reviewer_facts.
Import code_reviewer.

Lemma count_severity_app sev l1 l2 :
  count_severity sev (l1 ++ l2) = count_severity sev l1 + count_severity sev l2.
Proof. unfold count_severity. rewrite filter_app, length_app. lia. Qed.

Lemma severity_counts_le all_issues :
  count_severity "critical" all_issues + count_severity "high" all_issues +
  count_severity "medium" all_issues + count_severity "low" all_issues
    ≤ Z.of_nat (length all_issues).
Proof.
  unfold count_severity. induction all_issues as [|i l IH]; [done|].
  rewrite !filter_cons. cbn [length].
  repeat case_decide; cbn [length]; try congruence; lia.
Qed.

Lemma count_severity_zero sev all_issues :
  count_severity sev all_issues = 0 ↔
  Forall (λ i, orchestrator.severity i ≠ sev) all_issues.
Proof.
  unfold count_severity. induction all_issues as [|i l IH]; [done|].
  rewrite filter_cons, Forall_cons. case_decide; cbn [length].
  - split; [lia|]. by intros [? _].
  - rewrite IH. tauto.
Qed.

(** X18. For the review that [review_code] builds from the issues of its three
    checks: the four severity counts add up to no more than the total; the
    review passes exactly when no issue is critical or high; and the
    refinement prompt the engine builds from it lists exactly
    [critical_issues] issues, so that the engine enters the refinement loop
    exactly when the prompt has an issue to address. *)
Theorem review_counts_agree_with_prompt lint security ai path iteration :
  let r := aggregate lint security ai path in
  let prompt := orchestrator._create_refinement_prompt (as_result r) iteration in
  critical_issues r + high_issues r + medium_issues r + low_issues r
    ≤ total_issues r ∧
  total_issues r =
    Z.of_nat (length lint) + Z.of_nat (length security) + Z.of_nat (length ai) ∧
  (passed r = true ↔
   Forall (λ i, orchestrator.severity i ≠ "critical" ∧
                orchestrator.severity i ≠ "high") (issues r)) ∧
  Z.of_nat (length (orchestrator.prompt_critical prompt)) = critical_issues r ∧
  (0 < orchestrator.critical_issues (as_result r) ↔
   orchestrator.prompt_critical prompt ≠ []).
Proof.
  cbn zeta. unfold aggregate, as_result, orchestrator._create_refinement_prompt.
  cbn [critical_issues high_issues medium_issues low_issues total_issues
       passed issues orchestrator.issues orchestrator.critical_issues
       orchestrator.prompt_critical].
  set (l := lint ++ security ++ ai).
  split_and!.
  - apply severity_counts_le.
  - subst l. rewrite !length_app. lia.
  - rewrite andb_true_iff, !Z.eqb_eq, !count_severity_zero.
    by rewrite Forall_and.
  - done.
  - unfold count_severity. destruct (filter _ l); cbn; split; (done || lia).
Qed.

End reviewer_facts.
